(** * A shallow embedding of [utils/logger.py]

    The development follows the Python module top to bottom: the media
    wrappers and the values a caller can record, the writer classes
    ([KVWriter], [SeqWriter], [HumanOutputFormat],
    [TensorBoardOutputFormat], [WANDBOutputFormat]) and finally the
    [Logger] itself.

    Modelling conventions.
    - A Python [dict] keyed by strings is a [gmap string _]; the only
      traversal the module performs is [sorted(d.items())], so insertion
      order is irrelevant.  The auto-vivification of [defaultdict] on a
      read [d[key]] is written out in [getitem].
    - Python [float]s are idealised as exact rationals [Q]; equalities
      between stored numbers are therefore stated with [Qeq].
    - Strings are byte strings; [len] is [String.length] and comparison is
      the lexicographic order on character codes, as in Python for ASCII.
    - A method that can raise returns a [result]; a method that performs
      output returns an [io] computation, i.e. the list of effects it
      emitted before it returned or raised.
    - Array payloads ([torch.Tensor], numpy arrays) are not part of the
      [value] type. *)

From Stdlib Require Import QArith Ascii.
From stdpp Require Import gmap strings list sorting pretty.

(** ** Severity levels *)

Definition DEBUG : Z := 10.
Definition INFO : Z := 20.
Definition WARN : Z := 30.
Definition ERROR : Z := 40.
Definition DISABLED : Z := 50.

(** ** Recorded values

    [Video], [Figure] and [Image] are the three wrapper classes; their
    payloads (frame buffers, figure handles, pixel buffers) are opaque and
    represented by a name. *)

Inductive value :=
| VNone
| VInt (z : Z)
| VFloat (q : Q)
| VStr (s : string)
| Video (frames : string) (fps : Q)
| Figure (figure : string) (close : bool)
| Image (image : string) (dataformats : string).

(** [Optional[Union[str, Tuple[str, ...]]]]: the [exclude] argument. *)
Inductive exclusion :=
| ExStr (s : string)
| ExTuple (l : list string).

Abbreviation excluded := (option exclusion).

(** ** Exceptions and results *)

Inductive exn :=
| TypeError
| ZeroDivisionError
| AttributeError
| NotImplementedError
| FormatUnsupportedError (unsupported_formats : list string)
                         (value_description : string).

Abbreviation result A := (exn + A)%type.

Definition rbind {A B} (r : result A) (k : A → result B) : result B :=
  match r with
  | inl e => inl e
  | inr a => k a
  end.

Notation "x ←ᵣ r ; k" := (rbind r (λ x, k))
  (at level 100, r at next level, k at level 200, right associativity).

(** ** Python primitives used by the module *)

(** [sub in s] for two strings: substring test. *)
Definition str_contains (sub s : string) : bool :=
  if String.index 0 sub s is Some _ then true else false.

(** [token in excluded] for a non-None exclusion: substring test on a
    [str], membership on a tuple. *)
Definition py_in (token : string) (e : exclusion) : bool :=
  match e with
  | ExStr s => str_contains token s
  | ExTuple l => bool_decide (token ∈ l)
  end.

(** [s[:stop]], including Python's treatment of a negative [stop]. *)
Definition slice_to (s : string) (stop : Z) : string :=
  let n := Z.of_nat (String.length s) in
  let stop' := if (stop <? 0)%Z then Z.max 0 (n + stop) else Z.min stop n in
  String.substring 0 (Z.to_nat stop') s.

(** [s[start:]] for [0 <= start]. *)
Definition slice_from (s : string) (start : nat) : string :=
  String.substring start (String.length s - start) s.

(** [s * n]. *)
Fixpoint str_repeat (s : string) (n : nat) : string :=
  match n with
  | O => ""
  | S n => s +:+ str_repeat s n
  end.

(** [key.find("/")], [-1] when absent. *)
Definition str_find (sub s : string) : Z :=
  match String.index 0 sub s with
  | Some i => Z.of_nat i
  | None => (-1)%Z
  end.

Definition as_number (v : value) : option Q :=
  match v with
  | VInt z => Some (inject_Z z)
  | VFloat q => Some q
  | _ => None
  end.

(** [a * b] *)
Definition py_mul (a b : value) : result value :=
  match a, b with
  | VInt x, VInt y => inr (VInt (x * y))
  | VInt x, VFloat y => inr (VFloat (inject_Z x * y))
  | VFloat x, VInt y => inr (VFloat (x * inject_Z y))
  | VFloat x, VFloat y => inr (VFloat (x * y))
  | VStr s, VInt n | VInt n, VStr s => inr (VStr (str_repeat s (Z.to_nat n)))
  | _, _ => inl TypeError
  end.

(** [a / b] (true division) *)
Definition py_truediv (a b : value) : result value :=
  match as_number a, as_number b with
  | Some x, Some y =>
      if Qeq_bool y 0 then inl ZeroDivisionError else inr (VFloat (x / y))
  | _, _ => inl TypeError
  end.

(** [a + b] *)
Definition py_add (a b : value) : result value :=
  match a, b with
  | VInt x, VInt y => inr (VInt (x + y))
  | VInt x, VFloat y => inr (VFloat (inject_Z x + y))
  | VFloat x, VInt y => inr (VFloat (x + inject_Z y))
  | VFloat x, VFloat y => inr (VFloat (x + y))
  | VStr s, VStr t => inr (VStr (s +:+ t))
  | _, _ => inl TypeError
  end.

(** [d[key]] on a [defaultdict]: a missing key is inserted with the
    factory's default before it is returned. *)
Definition getitem {V} (d : gmap string V) (key : string) (default : V)
  : V * gmap string V :=
  match d !! key with
  | Some v => (v, d)
  | None => (default, <[key := default]> d)
  end.

(** [sorted(d.items())]: the items in increasing key order.  Keys of a
    dictionary are pairwise distinct, so the second components are never
    compared. *)
Definition key_le {V} : relation (string * V) := λ p q, String.le p.1 q.1.

Global Instance key_le_dec {V} : RelDecision (@key_le V).
Proof. intros p q. unfold key_le. apply _. Defined.

Definition sorted_items {V} (d : gmap string V) : list (string * V) :=
  merge_sort key_le (map_to_list d).

(** ** Effects *)

Inductive writer_call :=
| add_text (key text : string) (step : Z)
| add_scalar (key : string) (v : value) (step : Z)
| add_video (key frames : string) (step : Z) (fps : Q)
| add_figure (key figure : string) (step : Z) (close : bool)
| add_image (key image : string) (step : Z) (dataformats : string)
| writer_flush
| writer_close.

Inductive wandb_value :=
| WScalar (v : value)
| WVideo (frames : string) (fps : Q) (format : string)
| WImage (image : string).

Inductive event :=
| FileWrite (file data : string)
| FileFlush (file : string)
| FileClose (file : string)
| Warning (message : string)
| SummaryWriterCall (log_dir : string) (c : writer_call)
| WandbLog (wandb_dict : list (string * wandb_value)).

(** An [io] computation: the effects emitted, then a return or a raise. *)
Abbreviation io A := (list event * result A)%type.

Definition ret {A} (a : A) : io A := ([], inr a).
Definition raise {A} (e : exn) : io A := ([], inl e).
Definition emit (ev : event) : io unit := ([ev], inr tt).

Definition bind {A B} (m : io A) (k : A → io B) : io B :=
  match m with
  | (evs, inl e) => (evs, inl e)
  | (evs, inr a) => let '(evs', r) := k a in (evs ++ evs', r)
  end.

Notation "m ;; k" := (bind m (λ _, k))
  (at level 100, k at level 200, right associativity).

(** [for x in l: body x] *)
Fixpoint for_each {A} (l : list A) (body : A → io unit) : io unit :=
  match l with
  | [] => ret tt
  | x :: l => body x ;; for_each l body
  end.

(** [for x in l: st = body st x], where the body may raise. *)
Fixpoint fold_result {A S} (body : S → A → result S) (st : S) (l : list A)
  : result S :=
  match l with
  | [] => inr st
  | x :: l => st' ←ᵣ body st x; fold_result body st' l
  end.

(** The two conversions of a [float] to text that the module relies on are
    Python built-ins: the format specification [<8.3g] and [str]. *)
Class PyFloatText := {
  format_8_3g : Q → string;
  float_str : Q → string
}.

(** [str(value)] *)
Definition str `{PyFloatText} (v : value) : string :=
  match v with
  | VNone => "None"
  | VInt z => pretty z
  | VFloat q => float_str q
  | VStr s => s
  | Video _ _ => "<Video object>"
  | Figure _ _ => "<Figure object>"
  | Image _ _ => "<Image object>"
  end.

Definition newline : string := String "010"%char "".

(** [sep.join(l)] *)
Fixpoint str_join (sep : string) (l : list string) : string :=
  match l with
  | [] => ""
  | [s] => s
  | s :: l => s +:+ sep +:+ str_join sep l
  end.

(** ** Writers *)

(** The objects that can sit in [Logger.output_formats]: instances of the
    two abstract classes themselves and of the three concrete writers. *)
Inductive output_format :=
| KVWriter
| SeqWriter
| HumanOutputFormat (file : string) (own_file : bool) (max_length : Z)
| TensorBoardOutputFormat (writer : option string)
| WANDBOutputFormat.

(** [isinstance(_format, KVWriter)] and [isinstance(_format, SeqWriter)] *)
Definition is_KVWriter (f : output_format) : bool :=
  match f with
  | SeqWriter => false
  | _ => true
  end.

Definition is_SeqWriter (f : output_format) : bool :=
  match f with
  | SeqWriter | HumanOutputFormat _ _ _ => true
  | _ => false
  end.

Abbreviation item := ((string * value) * (string * excluded))%type.

(** [zip(sorted(key_values.items()), sorted(key_excluded.items()))]: the
    i-th value is paired with the i-th exclusion, whatever its key. *)
Definition paired_items (key_values : gmap string value)
    (key_excluded : gmap string excluded) : list item :=
  zip (sorted_items key_values) (sorted_items key_excluded).

(** *** HumanOutputFormat *)

Definition _truncate (max_length : Z) (string : String.string)
  : String.string :=
  if (max_length <? Z.of_nat (String.length string))%Z
  then slice_to string (max_length - 3) +:+ "..."
  else string.

(** The local variables of [HumanOutputFormat.write] that live across
    iterations. *)
Record human_locals := {
  key2str : list (string * string);
  tag : option string;
  tags : gset string
}.

(** [excluded is not None and ("stdout" in excluded or "log" in excluded)] *)
Definition human_excluded (excluded : excluded) : bool :=
  match excluded with
  | None => false
  | Some e => py_in "stdout" e || py_in "log" e
  end.

Definition human_value_str `{PyFloatText} (value : value) : result string :=
  match value with
  | Video _ _ => inl (FormatUnsupportedError ["stdout"; "log"] "video")
  | Figure _ _ => inl (FormatUnsupportedError ["stdout"; "log"] "figure")
  | Image _ _ => inl (FormatUnsupportedError ["stdout"; "log"] "image")
  | VFloat q => inr (format_8_3g q)
  | _ => inr (str value)
  end.

(** One iteration of the loop of [HumanOutputFormat.write]. *)
Definition human_row `{PyFloatText} (max_length : Z) (st : human_locals)
    (it : item) : result human_locals :=
  let '((key, value), (_, excluded)) := it in
  if human_excluded excluded then inr st
  else
    value_str ←ᵣ human_value_str value;
    let st :=
      if (0 <? str_find "/" key)%Z then
        let tag := slice_to key (str_find "/" key + 1) in
        if decide (tag ∈ tags st) then
          {| key2str := key2str st; tag := Some tag; tags := tags st |}
        else
          {| key2str := key2str st ++ [(_truncate max_length tag, "")];
             tag := Some tag;
             tags := {[tag]} ∪ tags st |}
      else st in
    let key :=
      match tag st with
      | Some t =>
          if str_contains t key
          then "   " +:+ slice_from key (String.length t)
          else key
      | None => key
      end in
    inr {| key2str := key2str st ++
                      [(_truncate max_length key, _truncate max_length value_str)];
           tag := tag st;
           tags := tags st |}.

Definition human_rows `{PyFloatText} (max_length : Z) (items : list item)
  : result human_locals :=
  fold_result (human_row max_length)
    {| key2str := []; tag := None; tags := ∅ |} items.

(** The table: a line of dashes, one line per row, a line of dashes. *)
Definition human_lines (key2str : list (string * string)) : list string :=
  let key_width := max_list (String.length <$> key2str.*1) in
  let val_width := max_list (String.length <$> key2str.*2) in
  let dashes := str_repeat "-" (key_width + val_width + 7) in
  [dashes] ++
  ((λ '(key, value),
      let key_space := str_repeat " " (key_width - String.length key) in
      let val_space := str_repeat " " (val_width - String.length value) in
      "| " +:+ key +:+ key_space +:+ " | " +:+ value +:+ val_space +:+ " |")
     <$> key2str) ++
  [dashes].

Definition human_write `{PyFloatText} (file : string) (max_length : Z)
    (key_values : gmap string value) (key_excluded : gmap string excluded)
    (step : Z) : io unit :=
  match human_rows max_length (paired_items key_values key_excluded) with
  | inl e => raise e
  | inr st =>
      if decide (length (key2str st) = 0)
      then emit (Warning "Tried to write empty key-value dict")
      else
        emit (FileWrite file
                (str_join newline (human_lines (key2str st)) +:+ newline)) ;;
        emit (FileFlush file)
  end.

(** [HumanOutputFormat.write_sequence] *)
Fixpoint human_write_elems (file : string) (sequence : list string)
  : io unit :=
  match sequence with
  | [] => ret tt
  | [elem] => emit (FileWrite file elem)
  | elem :: rest =>
      emit (FileWrite file elem) ;; emit (FileWrite file " ") ;;
      human_write_elems file rest
  end.

Definition human_write_sequence (file : string) (sequence : list string)
  : io unit :=
  human_write_elems file sequence ;;
  emit (FileWrite file newline) ;;
  emit (FileFlush file).

(** *** TensorBoardOutputFormat *)

(** A method call on [self.writer]; after [close] the attribute is [None]
    and any call on it raises. *)
Definition writer_do (writer : option string) (c : writer_call) : io unit :=
  match writer with
  | Some log_dir => emit (SummaryWriterCall log_dir c)
  | None => raise AttributeError
  end.

Definition tensorboard_excluded (excluded : excluded) : bool :=
  match excluded with
  | None => false
  | Some e => py_in "tensorboard" e
  end.

(** One iteration of the loop of [TensorBoardOutputFormat.write]; the
    [isinstance] tests of the body are mutually exclusive on [value]. *)
Definition tensorboard_row (writer : option string) (step : Z) (it : item)
  : io unit :=
  let '((key, value), (_, excluded)) := it in
  if tensorboard_excluded excluded then ret tt
  else
    match value with
    | VStr s => writer_do writer (add_text key s step)
    | VInt _ | VFloat _ => writer_do writer (add_scalar key value step)
    | Video frames fps => writer_do writer (add_video key frames step fps)
    | Figure figure close =>
        writer_do writer (add_figure key figure step close)
    | Image image dataformats =>
        writer_do writer (add_image key image step dataformats)
    | VNone => ret tt
    end.

Definition tensorboard_write (writer : option string)
    (key_values : gmap string value) (key_excluded : gmap string excluded)
    (step : Z) : io unit :=
  for_each (paired_items key_values key_excluded)
           (tensorboard_row writer step) ;;
  writer_do writer writer_flush.

(** *** WANDBOutputFormat *)

Definition wandb_excluded (excluded : excluded) : bool :=
  match excluded with
  | None => false
  | Some e => py_in "wandb" e
  end.

Definition wandb_row (wandb_dict : list (string * wandb_value)) (it : item)
  : list (string * wandb_value) :=
  let '((key, value), (_, excluded)) := it in
  if wandb_excluded excluded then wandb_dict
  else
    match value with
    | VInt _ | VFloat _ | VStr _ => wandb_dict ++ [(key, WScalar value)]
    | Video frames fps => wandb_dict ++ [(key, WVideo frames fps "gif")]
    | Image image _ => wandb_dict ++ [(key, WImage image)]
    | VNone | Figure _ _ => wandb_dict
    end.

Definition wandb_write (key_values : gmap string value)
    (key_excluded : gmap string excluded) (step : Z) : io unit :=
  emit (WandbLog (foldl wandb_row [] (paired_items key_values key_excluded))).

(** *** Dynamic dispatch of [write], [write_sequence] and [close] *)

Definition write `{PyFloatText} (f : output_format)
    (key_values : gmap string value) (key_excluded : gmap string excluded)
    (step : Z) : io unit :=
  match f with
  | KVWriter => raise NotImplementedError
  | SeqWriter => raise AttributeError
  | HumanOutputFormat file _ max_length =>
      human_write file max_length key_values key_excluded step
  | TensorBoardOutputFormat writer =>
      tensorboard_write writer key_values key_excluded step
  | WANDBOutputFormat => wandb_write key_values key_excluded step
  end.

Definition write_sequence (f : output_format) (sequence : list string)
  : io unit :=
  match f with
  | SeqWriter => raise NotImplementedError
  | HumanOutputFormat file _ _ => human_write_sequence file sequence
  | _ => raise AttributeError
  end.

(** [close] may replace the writer object's own state: the TensorBoard
    writer drops its [SummaryWriter]. *)
Definition close_format (f : output_format) : output_format * io unit :=
  match f with
  | KVWriter => (f, raise NotImplementedError)
  | SeqWriter => (f, raise AttributeError)
  | HumanOutputFormat file own_file _ =>
      (f, if own_file then emit (FileClose file) else ret tt)
  | TensorBoardOutputFormat (Some log_dir) =>
      (TensorBoardOutputFormat None,
       emit (SummaryWriterCall log_dir writer_close))
  | TensorBoardOutputFormat None => (f, ret tt)
  | WANDBOutputFormat => (f, ret tt)
  end.

(** ** The Logger *)

Record Logger := {
  name_to_value : gmap string value;
  name_to_count : gmap string nat;
  name_to_excluded : gmap string excluded;
  level : Z;
  dir : option string;
  output_formats : list output_format
}.

(** [Logger.__init__] *)
Definition Logger_init (folder : option string)
    (output_formats : list output_format) : Logger :=
  {| name_to_value := ∅;
     name_to_count := ∅;
     name_to_excluded := ∅;
     level := INFO;
     dir := folder;
     output_formats := output_formats |}.

(** Replace the three accumulation maps, keeping everything else. *)
Definition set_maps (lg : Logger) (values : gmap string value)
    (counts : gmap string nat) (exclusions : gmap string excluded) : Logger :=
  {| name_to_value := values;
     name_to_count := counts;
     name_to_excluded := exclusions;
     level := level lg;
     dir := dir lg;
     output_formats := output_formats lg |}.

Definition record (lg : Logger) (key : string) (value : value)
    (exclude : excluded) : Logger :=
  set_maps lg (<[key := value]> (name_to_value lg))
           (name_to_count lg)
           (<[key := exclude]> (name_to_excluded lg)).

(** [old_val * count / (count + 1) + value / (count + 1)] *)
Definition mean_update (old_val : value) (count : nat)
  : value → result value := λ value,
  let n := VInt (Z.of_nat count) in
  let n1 := VInt (Z.of_nat count + 1) in
  a ←ᵣ py_mul old_val n;
  b ←ᵣ py_truediv a n1;
  c ←ᵣ py_truediv value n1;
  py_add b c.

(** [Logger.record_mean].  Both reads go through the [defaultdict], so a
    call that raises in the arithmetic has already materialised the
    defaults [0.0] and [0] for a fresh key. *)
Definition record_mean (lg : Logger) (key : string) (value : value)
    (exclude : excluded) : Logger * result unit :=
  match value with
  | VNone =>
      (set_maps lg (<[key := VNone]> (name_to_value lg))
                (name_to_count lg) (name_to_excluded lg),
       inr tt)
  | _ =>
      let '(old_val, values) := getitem (name_to_value lg) key (VFloat 0) in
      let '(count, counts) := getitem (name_to_count lg) key 0 in
      match mean_update old_val count value with
      | inl e => (set_maps lg values counts (name_to_excluded lg), inl e)
      | inr new =>
          (set_maps lg (<[key := new]> values)
                    (<[key := S count]> counts)
                    (<[key := exclude]> (name_to_excluded lg)),
           inr tt)
      end
  end.

(** [Logger.dump]: the maps are cleared after the loop, which is reached
    only when no [write] raised. *)
Definition dump `{PyFloatText} (lg : Logger) (step : Z) : Logger * io unit :=
  if decide (level lg = DISABLED) then (lg, ret tt)
  else
    let m :=
      for_each (output_formats lg) (λ _format,
        if is_KVWriter _format
        then write _format (name_to_value lg) (name_to_excluded lg) step
        else ret tt) in
    match m.2 with
    | inl _ => (lg, m)
    | inr _ => (set_maps lg ∅ ∅ ∅, m)
    end.

Definition _do_log `{PyFloatText} (lg : Logger) (args : list value)
  : io unit :=
  for_each (output_formats lg) (λ _format,
    if is_SeqWriter _format
    then write_sequence _format (str <$> args)
    else ret tt).

Definition log `{PyFloatText} (lg : Logger) (args : list value) (lvl : Z)
  : Logger * io unit :=
  (lg, if decide (level lg ≤ lvl)%Z then _do_log lg args else ret tt).

Definition set_level (lg : Logger) (lvl : Z) : Logger :=
  {| name_to_value := name_to_value lg;
     name_to_count := name_to_count lg;
     name_to_excluded := name_to_excluded lg;
     level := lvl;
     dir := dir lg;
     output_formats := output_formats lg |}.

Definition get_dir (lg : Logger) : option string := dir lg.

(** The loop of [Logger.close]: a raising [close] aborts the loop, the
    remaining writers are left as they were. *)
Fixpoint close_formats (fmts : list output_format)
  : list output_format * io unit :=
  match fmts with
  | [] => ([], ret tt)
  | f :: rest =>
      let '(f', m) := close_format f in
      match m.2 with
      | inl _ => (f' :: rest, m)
      | inr _ =>
          let '(rest', m') := close_formats rest in
          (f' :: rest', m ;; m')
      end
  end.

Definition close (lg : Logger) : Logger * io unit :=
  let '(fmts, m) := close_formats (output_formats lg) in
  ({| name_to_value := name_to_value lg;
      name_to_count := name_to_count lg;
      name_to_excluded := name_to_excluded lg;
      level := level lg;
      dir := dir lg;
      output_formats := fmts |}, m).

(** ** Notions used to state the properties *)

(** A run of [record_mean] calls on one key, with no [dump] in between;
    the run stops at the first call that raises. *)
Fixpoint record_mean_calls (lg : Logger) (key : string)
    (calls : list (value * excluded)) : Logger * result unit :=
  match calls with
  | [] => (lg, inr tt)
  | (v, exclude) :: calls =>
      let '(lg', r) := record_mean lg key v exclude in
      match r with
      | inl e => (lg', inl e)
      | inr _ => record_mean_calls lg' key calls
      end
  end.

Definition Qsum (l : list Q) : Q := foldr Qplus 0%Q l.

Definition arithmetic_mean (l : list Q) : Q :=
  (Qsum l / inject_Z (Z.of_nat (length l)))%Q.

(** The numbers passed by a run of calls. *)
Definition numbers (calls : list (value * excluded)) : list Q :=
  omap (λ c, as_number c.1) calls.

(** The number stored for [key] ([0.0], the [defaultdict] default, when
    there is none) and the number of mean-contributions counted for it. *)
Definition stored_number (lg : Logger) (key : string) : Q :=
  default 0%Q (name_to_value lg !! key ≫= as_number).

Definition stored_count (lg : Logger) (key : string) : nat :=
  default 0 (name_to_count lg !! key).

(** The value map holds a number for [key], or nothing. *)
Definition number_or_absent (lg : Logger) (key : string) : Prop :=
  match name_to_value lg !! key with
  | None => True
  | Some v => is_Some (as_number v)
  end.

(** [key] has not been accumulated since the maps were last cleared. *)
Definition no_prior_accumulation (lg : Logger) (key : string) : Prop :=
  name_to_count lg !! key = None ∧ number_or_absent lg key.

(** A call of a run passes a number (an [int] or a [float]). *)
Definition numeric_call (c : value * excluded) : Prop :=
  is_Some (as_number c.1).

(** Every key of the value map has an entry in the exclusion map. *)
Definition exclusion_defined (lg : Logger) : Prop :=
  dom (name_to_value lg) ⊆ dom (name_to_excluded lg).

(** A concrete choice for the two float conversions, so that closed
    examples can be evaluated; none of the examples below prints a
    float. *)
Definition float_text_stub : PyFloatText :=
  {| format_8_3g q := pretty (Qnum q) +:+ "/" +:+ pretty (Z.pos (Qden q));
     float_str q := pretty (Qnum q) +:+ "/" +:+ pretty (Z.pos (Qden q)) |}.

(** The tokens under which [make_output_format] builds each writer. *)
Definition backend_names (f : output_format) : list string :=
  match f with
  | HumanOutputFormat _ _ _ => ["stdout"; "log"]
  | TensorBoardOutputFormat _ => ["tensorboard"]
  | WANDBOutputFormat => ["wandb"]
  | KVWriter | SeqWriter => []
  end.

(** An exclusion spec names backend [b]: it is the string [b], or a tuple
    that holds [b]. *)
Definition names_backend (b : string) (spec : exclusion) : Prop :=
  match spec with
  | ExStr s => s = b
  | ExTuple l => b ∈ l
  end.

(** The skip test each writer applies to the exclusion it is handed. *)
Definition writer_excluded (f : output_format) (ex : excluded) : bool :=
  match f with
  | HumanOutputFormat _ _ _ => human_excluded ex
  | TensorBoardOutputFormat _ => tensorboard_excluded ex
  | WANDBOutputFormat => wandb_excluded ex
  | KVWriter | SeqWriter => false
  end.

(** The rows one iteration appends for its item: none when the item is
    skipped; otherwise at most one tag header and then the item's own row,
    whose two cells are truncations of the displayed key and of the value
    text. *)
Definition rows_of_item `{PyFloatText} (max_length : Z) (it : item)
    (rows : list (string * string)) : Prop :=
  if human_excluded it.2.2 then rows = []
  else
    ∃ header displayed_key value_str,
      human_value_str it.1.2 = inr value_str ∧
      rows = header ++ [(_truncate max_length displayed_key,
                         _truncate max_length value_str)] ∧
      (header = [] ∨ ∃ t, header = [(_truncate max_length t, "")]).

(** An item the writer can print: it is skipped, or its value is not one
    of the media wrappers. *)
Definition printable `{PyFloatText} (it : item) : Prop :=
  human_excluded it.2.2 = true ∨ ∃ s, human_value_str it.1.2 = inr s.

(** ** The leveled wrappers *)

Definition debug `{PyFloatText} (lg : Logger) (args : list value)
  : Logger * io unit := log lg args DEBUG.

Definition info `{PyFloatText} (lg : Logger) (args : list value)
  : Logger * io unit := log lg args INFO.

Definition warn `{PyFloatText} (lg : Logger) (args : list value)
  : Logger * io unit := log lg args WARN.

Definition error `{PyFloatText} (lg : Logger) (args : list value)
  : Logger * io unit := log lg args ERROR.

(** ** Construction of writers and loggers *)

(** What the constructors need from the process: whether the import of
    [SummaryWriter] succeeded and whether a WandB run is active. *)
Record process := {
  SummaryWriter_imported : bool;
  wandb_run : bool
}.

(** The exceptions of the construction phase; [Raised] carries those of
    the writers themselves. *)
Inductive setup_exn :=
| ValueError (message : string)
| AssertionError (message : string)
| Raised (e : exn).

(** The effects of the construction phase. *)
Inductive setup_event :=
| makedirs (path : string)
| open_wt (filename : string)
| new_SummaryWriter (log_dir : string).

Abbreviation setup A := (list setup_event * (setup_exn + A))%type.

(** The name under which the console stream is known. *)
Definition sys_stdout : string := "<stdout>".

(** [os.path.join(a, b)] on a POSIX system. *)
Definition os_path_join (a b : string) : string :=
  if String.prefix "/" b then b
  else if decide (a = "") then b
  else if str_contains "/" (slice_from a (String.length a - 1)) then a +:+ b
  else a +:+ "/" +:+ b.

(** [HumanOutputFormat.__init__] with a file name and with a stream; the
    default [max_length] is 36. *)
Definition HumanOutputFormat_open (filename : string) : setup output_format :=
  ([open_wt filename], inr (HumanOutputFormat filename true 36)).

Definition HumanOutputFormat_stream (file : string) : setup output_format :=
  ([], inr (HumanOutputFormat file false 36)).

(** [TensorBoardOutputFormat.__init__] *)
Definition TensorBoardOutputFormat_init (ps : process) (folder : string)
  : setup output_format :=
  if SummaryWriter_imported ps
  then ([new_SummaryWriter folder], inr (TensorBoardOutputFormat (Some folder)))
  else ([], inl (AssertionError
     "tensorboard is not installed, you can use pip install tensorboard to do so")).

(** [WANDBOutputFormat.__init__] *)
Definition WANDBOutputFormat_init (ps : process) : setup output_format :=
  if wandb_run ps then ([], inr WANDBOutputFormat)
  else ([], inl (ValueError "WandB is not initialized")).

Definition make_output_format (ps : process) (_format log_dir log_suffix : string)
  : setup output_format :=
  let '(evs, r) :=
    if decide (_format = "stdout") then HumanOutputFormat_stream sys_stdout
    else if decide (_format = "log") then
      HumanOutputFormat_open
        (os_path_join log_dir ("log" +:+ log_suffix +:+ ".txt"))
    else if decide (_format = "tensorboard") then
      TensorBoardOutputFormat_init ps log_dir
    else if decide (_format = "wandb") then WANDBOutputFormat_init ps
    else ([], inl (ValueError ("Unknown format specified: " +:+ _format))) in
  (makedirs log_dir :: evs, r).

(** The list comprehension of [configure_logger]: the writers are built
    left to right and the first constructor that raises ends it. *)
Fixpoint make_output_formats (ps : process) (format_strings : list string)
    (log_dir log_suffix : string) : setup (list output_format) :=
  match format_strings with
  | [] => ([], inr [])
  | f :: rest =>
      match make_output_format ps f log_dir log_suffix with
      | (evs, inl e) => (evs, inl e)
      | (evs, inr w) =>
          let '(evs', r) := make_output_formats ps rest log_dir log_suffix in
          (evs ++ evs',
           match r with inl e => inl e | inr ws => inr (w :: ws) end)
      end
  end.

(** [list(filter(None, format_strings))]: the empty strings are dropped. *)
Definition filter_None (format_strings : list string) : list string :=
  filter (λ f, f ≠ "") format_strings.

(** [configure_logger]; the default [format_strings=None] is not
    iterable.  The result holds the logger and what its greeting wrote. *)
Definition configure_logger `{PyFloatText} (ps : process) (folder : string)
    (format_strings : option (list string)) : setup (Logger * list event) :=
  match format_strings with
  | None => ([makedirs folder], inl (Raised TypeError))
  | Some format_strings =>
      let log_suffix := "" in
      let format_strings := filter_None format_strings in
      let '(evs, r) :=
        make_output_formats ps format_strings folder log_suffix in
      (makedirs folder :: evs,
       match r with
       | inl e => inl e
       | inr output_formats =>
           let logger := Logger_init (Some folder) output_formats in
           if decide (0 < length format_strings ∧ format_strings ≠ ["stdout"])
           then
             let '(logger, (out, r)) :=
               log logger [VStr ("Logging to " +:+ folder)] INFO in
             match r with
             | inl e => inl (Raised e)
             | inr _ => inr (logger, out)
             end
           else inr (logger, [])
       end)
  end.

(** ** Client programs *)

(** A call of one of the [Logger]'s methods. *)
Inductive call :=
| call_record (key : string) (value : value) (exclude : excluded)
| call_record_mean (key : string) (value : value) (exclude : excluded)
| call_dump (step : Z)
| call_log (args : list value) (lvl : Z)
| call_set_level (lvl : Z)
| call_close.

(** The logger after a call, whether the call returned or raised. *)
Definition perform `{PyFloatText} (lg : Logger) (c : call) : Logger :=
  match c with
  | call_record key value exclude => record lg key value exclude
  | call_record_mean key value exclude => (record_mean lg key value exclude).1
  | call_dump step => (dump lg step).1
  | call_log args lvl => (log lg args lvl).1
  | call_set_level lvl => set_level lg lvl
  | call_close => (close lg).1
  end.

(** A client that catches whatever a call raises and goes on. *)
Definition perform_all `{PyFloatText} (lg : Logger) (cs : list call) : Logger :=
  foldl perform lg cs.

(** A call that is not a [record_mean] of something other than a number
    ([None] included). *)
Definition numeric (c : call) : Prop :=
  match c with
  | call_record_mean _ value _ => is_Some (as_number value)
  | _ => True
  end.

(** Every key with a count or an exclusion has a value. *)
Definition keys_have_values (lg : Logger) : Prop :=
  dom (name_to_count lg) ⊆ dom (name_to_value lg) ∧
  dom (name_to_excluded lg) ⊆ dom (name_to_value lg).

(** ** Notions used to state the properties of the writers *)

(** What a writer emits when it is handed two empty maps. *)
Definition empty_write (f : output_format) : list event :=
  match f with
  | HumanOutputFormat _ _ _ => [Warning "Tried to write empty key-value dict"]
  | TensorBoardOutputFormat (Some log_dir) =>
      [SummaryWriterCall log_dir writer_flush]
  | WANDBOutputFormat => [WandbLog []]
  | _ => []
  end.

(** The text that a run of effects has written to [file], in order. *)
Fixpoint written (file : string) (evs : list event) : string :=
  match evs with
  | [] => ""
  | FileWrite f data :: evs =>
      if decide (f = file) then data +:+ written file evs
      else written file evs
  | _ :: evs => written file evs
  end.

(** The tag of a key: its prefix up to and including the first slash, when
    that slash is not the first character. *)
Definition key_tag (key : string) : option string :=
  if (0 <? str_find "/" key)%Z
  then Some (slice_to key (str_find "/" key + 1))
  else None.

(** The items that the console writer does not skip. *)
Definition human_printed (items : list item) : list item :=
  filter (λ it : item, human_excluded it.2.2 = false) items.

(** The width of the table for the given rows. *)
Definition table_width (key2str : list (string * string)) : nat :=
  max_list (String.length <$> key2str.*1)
  + max_list (String.length <$> key2str.*2) + 7.

(** The key a [SummaryWriter] call is about. *)
Definition call_key (c : writer_call) : option string :=
  match c with
  | add_text key _ _ | add_scalar key _ _ | add_video key _ _ _
  | add_figure key _ _ _ | add_image key _ _ _ => Some key
  | writer_flush | writer_close => None
  end.

(** The keys of the [SummaryWriter] calls of a run of effects, in order. *)
Definition summary_keys (evs : list event) : list string :=
  omap (λ ev, match ev with
              | SummaryWriterCall _ c => call_key c
              | _ => None
              end) evs.

(** What [WANDBOutputFormat.write] stores for a value, if anything. *)
Definition wandb_payload (v : value) : option wandb_value :=
  match v with
  | VInt _ | VFloat _ | VStr _ => Some (WScalar v)
  | Video frames fps => Some (WVideo frames fps "gif")
  | Image image _ => Some (WImage image)
  | VNone | Figure _ _ => None
  end.

(** The events of a message logged to one writer. *)
Definition message_events (sequence : list string) (f : output_format)
  : list event :=
  match f with
  | HumanOutputFormat file _ _ => (human_write_sequence file sequence).1
  | _ => []
  end.

(** The items that [TensorBoardOutputFormat.write] passes on to its
    [SummaryWriter]. *)
Definition tensorboard_logged (it : item) : bool :=
  negb (tensorboard_excluded it.2.2) &&
  match it.1.2 with VNone => false | _ => true end.

(** The entry that [WANDBOutputFormat.write] stores for an item, if any. *)
Definition wandb_entry (it : item) : option (string * wandb_value) :=
  if wandb_excluded it.2.2 then None
  else (λ w, (it.1.1, w)) <$> wandb_payload it.1.2.

(** A writer that [make_output_format] can return. *)
Definition built (f : output_format) : Prop :=
  ∃ ps _format log_dir log_suffix,
    (make_output_format ps _format log_dir log_suffix).2 = inr f.

(** A call that hands [record] or [record_mean] a number, or any other
    call. *)
Definition numbers_only (c : call) : Prop :=
  match c with
  | call_record _ value _ | call_record_mean _ value _ =>
      is_Some (as_number value)
  | _ => True
  end.

(** Every stored value is a number. *)
Definition all_numbers (lg : Logger) : Prop :=
  ∀ key v, name_to_value lg !! key = Some v → is_Some (as_number v).

(** The files that a run of construction effects opened and the
    [SummaryWriter]s it created, in order. *)
Definition opened (evs : list setup_event) : list string :=
  omap (λ ev, match ev with open_wt filename => Some filename | _ => None end)
       evs.

Definition created (evs : list setup_event) : list string :=
  omap (λ ev, match ev with
              | new_SummaryWriter log_dir => Some log_dir
              | _ => None
              end) evs.

(** The files and the [SummaryWriter]s that a run of effects closed, in
    order. *)
Definition closed_files (evs : list event) : list string :=
  omap (λ ev, match ev with FileClose file => Some file | _ => None end) evs.

Definition closed_writers (evs : list event) : list string :=
  omap (λ ev, match ev with
              | SummaryWriterCall log_dir writer_close => Some log_dir
              | _ => None
              end) evs.

(* ===================================================================== *)
(** * Verification *)
(* ===================================================================== *)

(** ** Running mean *)

Lemma Qeq_bool_succ_nat (n : nat) :
  Qeq_bool (inject_Z (Z.of_nat n + 1)) 0 = false.
Proof.
  destruct (Qeq_bool _ _) eqn:E; [|done].
  apply Qeq_bool_iff in E. unfold Qeq in E. simpl in E. lia.
Qed.

Lemma Qsucc_nat_nonzero (n : nat) : ¬ (inject_Z (Z.of_nat n + 1) == 0)%Q.
Proof. unfold Qeq. simpl. lia. Qed.

(** The arithmetic of one update, for a numeric old value. *)
Lemma mean_update_number (old_val v : value) (o q : Q) (n : nat) :
  as_number old_val = Some o →
  as_number v = Some q →
  ∃ q', mean_update old_val n v = inr (VFloat q') ∧
        (q' == (o * inject_Z (Z.of_nat n) + q)
                / inject_Z (Z.of_nat n + 1))%Q.
Proof.
  intros Ho Hq. unfold mean_update.
  destruct old_val; simplify_eq/=; destruct v; simplify_eq/=;
    unfold py_truediv; simpl; rewrite !Qeq_bool_succ_nat; simpl;
    eexists; (split; [reflexivity|]);
    rewrite ?inject_Z_mult; field; apply Qsucc_nat_nonzero.
Qed.

(** One successful call: the exact state it leaves, and the update law. *)
Lemma record_mean_number (lg : Logger) (key : string) (v : value)
    (exclude : excluded) (q : Q) :
  as_number v = Some q →
  number_or_absent lg key →
  ∃ q',
    record_mean lg key v exclude =
      (set_maps lg (<[key := VFloat q']> (name_to_value lg))
                (<[key := S (stored_count lg key)]> (name_to_count lg))
                (<[key := exclude]> (name_to_excluded lg)),
       inr tt) ∧
    (q' == (stored_number lg key * inject_Z (Z.of_nat (stored_count lg key))
            + q) / inject_Z (Z.of_nat (stored_count lg key) + 1))%Q.
Proof.
  intros Hq Hold. unfold number_or_absent in Hold.
  unfold stored_number, stored_count.
  assert (∃ old_val o values,
      getitem (name_to_value lg) key (VFloat 0) = (old_val, values) ∧
      as_number old_val = Some o ∧
      default 0%Q (name_to_value lg !! key ≫= as_number) = o ∧
      ∀ new, <[key := new]> values = <[key := new]> (name_to_value lg))
    as (old_val & o & values & Hget & Ho & Hdef & Hins).
  { unfold getitem. destruct (name_to_value lg !! key) as [w|] eqn:E.
    - destruct Hold as [o Ho]. exists w, o, (name_to_value lg).
      simpl. by rewrite Ho.
    - exists (VFloat 0), 0%Q, (<[key := VFloat 0]> (name_to_value lg)).
      repeat split; try done. intros new. apply insert_insert_eq. }
  assert (∃ counts,
      getitem (name_to_count lg) key 0 =
        (default 0 (name_to_count lg !! key), counts) ∧
      ∀ new, <[key := new]> counts = <[key := new]> (name_to_count lg))
    as (counts & Hgetc & Hinsc).
  { unfold getitem. destruct (name_to_count lg !! key) as [c|] eqn:E.
    - by exists (name_to_count lg).
    - exists (<[key := 0]> (name_to_count lg)). split; [done|].
      intros new. apply insert_insert_eq. }
  destruct (mean_update_number old_val v o q
              (default 0 (name_to_count lg !! key)) Ho Hq) as (q' & Hup & Heq).
  exists q'. split.
  - unfold record_mean. rewrite Hget, Hgetc, Hup, Hins, Hinsc.
    by destruct v.
  - by rewrite Hdef.
Qed.

Lemma stored_after_update (lg : Logger) (key : string) (q : Q)
    (counts : gmap string nat) (exclusions : gmap string excluded) (n : nat) :
  let lg' := set_maps lg (<[key := VFloat q]> (name_to_value lg))
                      (<[key := n]> counts) exclusions in
  name_to_value lg' !! key = Some (VFloat q) ∧
  name_to_count lg' !! key = Some n ∧
  stored_number lg' key = q ∧ stored_count lg' key = n ∧
  number_or_absent lg' key.
Proof.
  unfold stored_number, stored_count, number_or_absent. simpl.
  rewrite !lookup_insert_eq. simpl. eauto 10.
Qed.

(** A run of numeric calls never raises and maintains
    [stored * count = stored0 * count0 + sum of the new samples]. *)
Lemma record_mean_calls_numbers (key : string)
    (calls : list (value * excluded)) :
  ∀ lg : Logger,
    Forall numeric_call calls →
    number_or_absent lg key →
    ∃ lg',
      record_mean_calls lg key calls = (lg', inr tt) ∧
      number_or_absent lg' key ∧
      stored_count lg' key = stored_count lg key + length calls ∧
      (stored_number lg' key * inject_Z (Z.of_nat (stored_count lg' key)) ==
       stored_number lg key * inject_Z (Z.of_nat (stored_count lg key))
       + Qsum (numbers calls))%Q ∧
      (calls ≠ [] →
       name_to_value lg' !! key = Some (VFloat (stored_number lg' key)) ∧
       name_to_count lg' !! key = Some (stored_count lg' key)).
Proof.
  induction calls as [|[v exclude] calls IH]; intros lg Hnum Hold.
  - exists lg. simpl. split; [done|]. split; [done|]. split; [lia|].
    split; [|done]. unfold Qsum. simpl. ring.
  - apply Forall_cons in Hnum as [[q Hq] Hnum]. simpl in Hq.
    destruct (record_mean_number lg key v exclude q Hq Hold)
      as (q1 & Hcall & Hq1).
    pose proof (stored_after_update lg key q1 (name_to_count lg)
                  (<[key := exclude]> (name_to_excluded lg))
                  (S (stored_count lg key))) as Hafter.
    simpl in Hafter. destruct Hafter as (Hv1 & Hc1 & Hs1 & Hn1 & Hok1).
    destruct (IH _ Hnum Hok1) as (lg' & Hrun & Hok' & Hcnt & Hsum & Hlast).
    exists lg'. simpl. rewrite Hcall. split; [done|]. split; [done|].
    split; [rewrite Hcnt, Hn1; lia|]. split.
    + rewrite Hsum, Hs1, Hn1. unfold numbers. simpl. rewrite Hq.
      fold (numbers calls). unfold Qsum at 2. simpl. fold (Qsum (numbers calls)).
      rewrite Hq1. replace (Z.of_nat (S (stored_count lg key)))
        with (Z.of_nat (stored_count lg key) + 1)%Z by lia.
      field. apply Qsucc_nat_nonzero.
    + intros _. destruct calls as [|c calls].
      * simpl in Hrun. injection Hrun as <-. by rewrite Hs1, Hn1.
      * by apply Hlast.
Qed.

Lemma Qsum_Permutation (l1 l2 : list Q) :
  l1 ≡ₚ l2 → (Qsum l1 == Qsum l2)%Q.
Proof.
  unfold Qsum. induction 1; simpl.
  - reflexivity.
  - by rewrite IHPermutation.
  - ring.
  - by etrans.
Qed.

Lemma numbers_Permutation (calls calls' : list (value * excluded)) :
  calls ≡ₚ calls' → numbers calls ≡ₚ numbers calls'.
Proof. intros Hp. unfold numbers. by rewrite Hp. Qed.

Lemma numbers_length (calls : list (value * excluded)) :
  Forall numeric_call calls → length (numbers calls) = length calls.
Proof.
  unfold numbers. induction 1 as [|[v e] l [q Hq] _ IH]; simpl in *; [done|].
  rewrite Hq. simpl. f_equal. exact IH.
Qed.

Lemma no_prior_stored_count (lg : Logger) (key : string) :
  no_prior_accumulation lg key → stored_count lg key = 0.
Proof. intros [Hc _]. unfold stored_count. by rewrite Hc. Qed.

(** From a state without accumulation for [key], a non-empty run of
    numeric calls stores their arithmetic mean and their number. *)
Lemma record_mean_calls_mean (lg : Logger) (key : string)
    (calls : list (value * excluded)) :
  calls ≠ [] →
  Forall numeric_call calls →
  no_prior_accumulation lg key →
  ∃ lg' q,
    record_mean_calls lg key calls = (lg', inr tt) ∧
    name_to_value lg' !! key = Some (VFloat q) ∧
    (q == arithmetic_mean (numbers calls))%Q ∧
    name_to_count lg' !! key = Some (length calls).
Proof.
  intros Hne Hnum Hfresh.
  destruct (record_mean_calls_numbers key calls lg Hnum (proj2 Hfresh))
    as (lg' & Hrun & _ & Hcnt & Hsum & Hlast).
  destruct (Hlast Hne) as [Hv Hc].
  rewrite (no_prior_stored_count _ _ Hfresh) in Hcnt, Hsum. simpl in Hcnt.
  exists lg', (stored_number lg' key). split; [done|]. split; [done|].
  split; [|by rewrite Hc, Hcnt].
  unfold arithmetic_mean. rewrite numbers_length by done.
  rewrite Hcnt in Hsum.
  assert (¬ (inject_Z (Z.of_nat (length calls)) == 0)%Q) as Hlen.
  { unfold Qeq. simpl. destruct calls; [done|]. simpl. lia. }
  assert (Qsum (numbers calls) ==
          stored_number lg' key * inject_Z (Z.of_nat (length calls)))%Q
    as ->.
  { rewrite Hsum. change (inject_Z (Z.of_nat 0)) with 0%Q. ring. }
  field. exact Hlen.
Qed.



(** ** [record_mean] with a null value *)

(** C3 (as stated) fails.  After one sample for ["k"], [record_mean("k",
    None)] stores null but leaves the count at 1, whereas a key that never
    accumulated has no count; and the next [record_mean("k", 5.0)] raises
    [TypeError], whereas on a fresh key it returns and stores the sample. *)
Lemma record_mean_None_reset_counterexample :
  let fresh := Logger_init None [] in
  let lg := (record_mean (record_mean fresh "k" (VFloat 1) None).1
                         "k" VNone None).1 in
  name_to_value lg !! "k" = Some VNone ∧
  name_to_count lg !! "k" = Some 1 ∧
  name_to_count fresh !! "k" = None ∧
  (record_mean lg "k" (VFloat 5) None).2 = inl TypeError ∧
  (record_mean fresh "k" (VFloat 5) None).2 = inr tt.
Proof. vm_compute. done. Qed.

(** C3, amended.  In every state, [record_mean(key, None)] returns
    normally, stores null for [key], leaves every other stored value as it
    was, and leaves the count map (hence the count of [key]) and the
    exclusion map unchanged. *)
Theorem record_mean_None_keeps_count (lg : Logger) (key : string)
    (exclude : excluded) :
  ∃ lg',
    record_mean lg key VNone exclude = (lg', inr tt) ∧
    name_to_value lg' !! key = Some VNone ∧
    (∀ k, k ≠ key → name_to_value lg' !! k = name_to_value lg !! k) ∧
    name_to_count lg' = name_to_count lg ∧
    stored_count lg' key = stored_count lg key ∧
    name_to_excluded lg' = name_to_excluded lg.
Proof.
  eexists. split; [reflexivity|]. simpl. split; [by rewrite lookup_insert_eq|].
  split; [|done]. intros k Hk. by rewrite lookup_insert_ne.
Qed.

(** C10.  After [record_mean(key, None)], a call [record_mean(key, v)]
    with a number [v] reaches the arithmetic with a null old value and
    raises [TypeError]; nothing is accumulated: the stored value stays
    null, the count is not incremented and the exclusion is not updated. *)
Theorem record_mean_after_None_raises (lg : Logger) (key : string)
    (exclude0 exclude : excluded) (v : value) (q : Q) :
  as_number v = Some q →
  ∃ lg1 lg2,
    record_mean lg key VNone exclude0 = (lg1, inr tt) ∧
    record_mean lg1 key v exclude = (lg2, inl TypeError) ∧
    name_to_value lg2 !! key = Some VNone ∧
    stored_count lg2 key = stored_count lg key ∧
    name_to_excluded lg2 = name_to_excluded lg.
Proof.
  intros Hq.
  assert (∀ m : gmap string value,
            getitem (<[key := VNone]> m) key (VFloat 0)
            = (VNone, <[key := VNone]> m)) as Hget.
  { intros m. unfold getitem. by rewrite lookup_insert_eq. }
  unfold stored_count.
  destruct v; simplify_eq/=;
    destruct (name_to_count lg !! key) eqn:E;
    eexists _, _; (split; [reflexivity|]); simpl; rewrite Hget;
    unfold getitem; simpl; rewrite E; simpl;
    (split; [reflexivity|]); simpl;
    rewrite ?lookup_insert_eq, ?E; done.
Qed.

Lemma record_mean_after_None_raises_witness :
  ∃ lg1 lg2,
    record_mean (Logger_init None []) "k" VNone None = (lg1, inr tt) ∧
    record_mean lg1 "k" (VFloat 5) None = (lg2, inl TypeError) ∧
    name_to_value lg2 !! "k" = Some VNone ∧
    stored_count lg2 "k" = stored_count (Logger_init None []) "k" ∧
    name_to_excluded lg2 = name_to_excluded (Logger_init None []).
Proof.
  apply (record_mean_after_None_raises (Logger_init None []) "k" None None
           (VFloat 5) 5%Q).
  reflexivity.
Defined.

(** C6: the null branch returns before the exclusion is stored.  On a
    fresh logger [record_mean("a", None, exclude="stdout")] leaves no
    exclusion entry for ["a"]; after [record("a", 1.0,
    exclude="tensorboard")], [record_mean("a", None, exclude=None)] leaves
    the old exclusion ["tensorboard"] in place. *)
Theorem record_mean_None_skips_exclusion :
  let fresh := Logger_init None [] in
  name_to_excluded
    (record_mean fresh "a" VNone (Some (ExStr "stdout"))).1 !! "a" = None ∧
  name_to_excluded
    (record_mean (record fresh "a" (VFloat 1) (Some (ExStr "tensorboard")))
                 "a" VNone None).1 !! "a"
    = Some (Some (ExStr "tensorboard")).
Proof. vm_compute. done. Qed.

(** C4: the invariant "every key of the value map has an entry in the
    exclusion map" holds initially and is broken by
    [record_mean("a", None)] on a fresh logger. *)
Theorem record_mean_None_breaks_exclusion_defined :
  let fresh := Logger_init None [] in
  let lg := (record_mean fresh "a" VNone None).1 in
  exclusion_defined fresh ∧
  name_to_value lg !! "a" = Some VNone ∧
  name_to_excluded lg !! "a" = None ∧
  ¬ exclusion_defined lg.
Proof.
  unfold exclusion_defined. simpl. split; [set_solver|].
  split; [by rewrite lookup_insert_eq|]. split; [by rewrite lookup_empty|].
  rewrite dom_insert_L, !dom_empty_L. set_solver.
Qed.

(** ** [dump] and [close]: what a raising writer leaves behind *)

(** A loop either runs every body to completion, or stops at the first
    body that raises and propagates its exception; the effects are those
    of the bodies that ran. *)
Lemma for_each_outcome {A} (l : list A) (body : A → io unit) :
  match (for_each l body).2 with
  | inr _ =>
      Forall (λ x, (body x).2 = inr tt) l ∧
      (for_each l body).1 = concat ((λ x, (body x).1) <$> l)
  | inl e =>
      ∃ l1 x l2,
        l = l1 ++ x :: l2 ∧
        Forall (λ y, (body y).2 = inr tt) l1 ∧
        (body x).2 = inl e ∧
        (for_each l body).1 = concat ((λ y, (body y).1) <$> (l1 ++ [x]))
  end.
Proof.
  induction l as [|x l IH]; simpl; [done|].
  destruct (body x) as [evs [e|[]]] eqn:Hx; simpl.
  - exists [], x, l. simpl. rewrite Hx. simpl.
    by rewrite (right_id_L [] (++)).
  - destruct (for_each l body) as [evs' [e|[]]]; simpl in *.
    + destruct IH as (l1 & y & l2 & -> & Hok & Hy & Hevs).
      exists (x :: l1), y, l2. simpl. rewrite Hx. simpl.
      split; [done|]. split; [constructor; by rewrite ?Hx|].
      split; [done|]. by rewrite Hevs.
    + destruct IH as [Hok Hevs]. split.
      * constructor; by rewrite ?Hx.
      * by rewrite Hevs.
Qed.

Section dump_policy.
  Context `{PyFloatText}.

(** C1, amended.  [dump] does nothing when the level is [DISABLED].
    Otherwise, when it returns normally every key-value writer's [write]
    returned normally and the three maps are empty; when it raises, the
    exception is the one raised by the [write] of a registered key-value
    writer and the logger, its three maps included, is left as it was. *)
Theorem dump_clears_only_on_return (lg : Logger) (step : Z) :
  ∃ lg' evs r,
    dump lg step = (lg', (evs, r)) ∧
    if decide (level lg = DISABLED) then lg' = lg ∧ evs = [] ∧ r = inr tt
    else
      match r with
      | inr _ =>
          name_to_value lg' = ∅ ∧ name_to_count lg' = ∅ ∧
          name_to_excluded lg' = ∅ ∧
          Forall (λ f, (write f (name_to_value lg) (name_to_excluded lg)
                              step).2 = inr tt)
                 (filter (λ f, is_KVWriter f) (output_formats lg))
      | inl e =>
          lg' = lg ∧
          ∃ f, f ∈ output_formats lg ∧ is_KVWriter f = true ∧
               (write f (name_to_value lg) (name_to_excluded lg) step).2
               = inl e
      end.
Proof.
  unfold dump. destruct (decide (level lg = DISABLED)) as [Hd|Hd].
  { by eexists _, _, _. }
  set (body := λ _format : output_format,
         if is_KVWriter _format
         then write _format (name_to_value lg) (name_to_excluded lg) step
         else ret tt).
  pose proof (for_each_outcome (output_formats lg) body) as Hout.
  destruct (for_each (output_formats lg) body) as [evs [e|[]]] eqn:Hrun;
    simpl in *; eexists _, _, _; (split; [reflexivity|]); simpl.
  - split; [done|].
    destruct Hout as (l1 & f & l2 & Hl & _ & Hf & _).
    exists f. split; [rewrite Hl; set_solver|].
    unfold body in Hf. by destruct (is_KVWriter f).
  - repeat (split; [done|]). destruct Hout as [Hok _]. clear Hrun.
    induction Hok as [|f l Hf _ IH]; [constructor|].
    rewrite filter_cons. unfold body in Hf.
    destruct (is_KVWriter f) eqn:Hk; simpl; [by constructor|done].
Qed.

End dump_policy.

(** C7, amended.  [close] calls [close] on the writers in registration
    order and stops at the first one that raises: the writers before it
    have been closed, the exception propagates, and the writers after it
    are left untouched.  When no [close] raises, all are closed in order. *)
Theorem close_stops_at_first_raise (lg : Logger) :
  ∃ lg' evs r,
    close lg = (lg', (evs, r)) ∧
    match r with
    | inr _ =>
        Forall (λ f, (close_format f).2.2 = inr tt) (output_formats lg) ∧
        evs = concat ((λ f, (close_format f).2.1) <$> output_formats lg) ∧
        output_formats lg' = (λ f, (close_format f).1) <$> output_formats lg
    | inl e =>
        ∃ closed f rest,
          output_formats lg = closed ++ f :: rest ∧
          Forall (λ f, (close_format f).2.2 = inr tt) closed ∧
          (close_format f).2.2 = inl e ∧
          evs = concat ((λ f, (close_format f).2.1) <$> (closed ++ [f])) ∧
          output_formats lg' =
            ((λ f, (close_format f).1) <$> closed)
            ++ (close_format f).1 :: rest
    end.
Proof.
  unfold close.
  assert (∀ fmts,
    match (close_formats fmts).2.2 with
    | inr _ =>
        Forall (λ f, (close_format f).2.2 = inr tt) fmts ∧
        (close_formats fmts).2.1
          = concat ((λ f, (close_format f).2.1) <$> fmts) ∧
        (close_formats fmts).1 = (λ f, (close_format f).1) <$> fmts
    | inl e =>
        ∃ closed f rest,
          fmts = closed ++ f :: rest ∧
          Forall (λ f, (close_format f).2.2 = inr tt) closed ∧
          (close_format f).2.2 = inl e ∧
          (close_formats fmts).2.1
            = concat ((λ f, (close_format f).2.1) <$> (closed ++ [f])) ∧
          (close_formats fmts).1 =
            ((λ f, (close_format f).1) <$> closed)
            ++ (close_format f).1 :: rest
    end) as Hloop.
  { induction fmts as [|f fmts IH]; simpl; [done|].
    destruct (close_format f) as [f' [evs [e|[]]]] eqn:Hf; simpl.
    - exists [], f, fmts. simpl. rewrite ?Hf. simpl.
      by rewrite (right_id_L [] (++)).
    - destruct (close_formats fmts) as [rest' [evs' [e|[]]]]; simpl in *.
      + destruct IH as (closed & g & rest & -> & Hok & Hg & Hevs & Hfmts).
        exists (f :: closed), g, rest. simpl. rewrite ?Hf. simpl.
        split; [done|]. split; [constructor; by rewrite ?Hf|].
        split; [done|]. by rewrite Hevs, Hfmts.
      + destruct IH as (Hok & Hevs & Hfmts). rewrite ?Hf. simpl.
        split; [constructor; by rewrite ?Hf|]. by rewrite Hevs, Hfmts. }
  specialize (Hloop (output_formats lg)).
  destruct (close_formats (output_formats lg)) as [fmts [evs r]].
  eexists _, _, _. split; [reflexivity|]. simpl in *. exact Hloop.
Qed.

(** C1 (as stated) fails.  With a video recorded for the console writer,
    [dump] raises [FormatUnsupportedError] and the value, count and
    exclusion maps still hold their entries; with the level [DISABLED],
    [dump] returns normally and the maps still hold their entries. *)
Lemma dump_keeps_state_counterexample :
  let lg0 := Logger_init None [HumanOutputFormat "<stdout>" false 36] in
  let lg := record (record_mean lg0 "loss" (VInt 1) None).1
                   "clip" (Video "frames" 30) None in
  let off := set_level lg DISABLED in
  (dump (H := float_text_stub) lg 0).2
    = ([], inl (FormatUnsupportedError ["stdout"; "log"] "video")) ∧
  name_to_value (dump (H := float_text_stub) lg 0).1 !! "clip"
    = Some (Video "frames" 30) ∧
  name_to_count (dump (H := float_text_stub) lg 0).1 !! "loss" = Some 1 ∧
  name_to_excluded (dump (H := float_text_stub) lg 0).1 !! "clip"
    = Some None ∧
  (dump (H := float_text_stub) off 0).2 = ([], inr tt) ∧
  name_to_value (dump (H := float_text_stub) off 0).1 !! "clip"
    = Some (Video "frames" 30) ∧
  name_to_count (dump (H := float_text_stub) off 0).1 !! "loss" = Some 1.
Proof. vm_compute. done. Qed.

(** C7 (as stated) fails.  With the abstract [KVWriter] registered before
    a file writer, [close] raises [NotImplementedError] from the first
    writer and never closes the file, although closing the file writer on
    its own succeeds. *)
Lemma close_aborts_counterexample :
  let file_writer := HumanOutputFormat "log.txt" true 36 in
  let lg := Logger_init None [KVWriter; file_writer] in
  (close lg).2 = ([], inl NotImplementedError) ∧
  output_formats (close lg).1 = [KVWriter; file_writer] ∧
  (close_format file_writer).2 = ([FileClose "log.txt"], inr tt) ∧
  FileClose "log.txt" ∉ (close lg).2.1.
Proof.
  simpl. split; [done|]. split; [done|]. split; [done|]. set_solver.
Qed.

(** ** The sorted traversal of a dictionary *)

Global Instance key_le_total {V} : Total (@key_le V).
Proof. intros p q. unfold key_le. apply (total String.le). Qed.

Global Instance key_le_trans {V} : Transitive (@key_le V).
Proof. intros p q r. unfold key_le. apply (transitivity (R := String.le)). Qed.

Lemma sorted_items_sorted {V} (d : gmap string V) :
  StronglySorted key_le (sorted_items d).
Proof. apply StronglySorted_merge_sort; apply _. Qed.

Lemma sorted_items_perm {V} (d : gmap string V) :
  sorted_items d ≡ₚ map_to_list d.
Proof. apply merge_sort_Permutation. Qed.

Lemma elem_of_sorted_items {V} (d : gmap string V) (k : string) (x : V) :
  (k, x) ∈ sorted_items d ↔ d !! k = Some x.
Proof. rewrite sorted_items_perm. apply elem_of_map_to_list. Qed.

Lemma sorted_items_keys_NoDup {V} (d : gmap string V) :
  NoDup (sorted_items d).*1.
Proof. rewrite sorted_items_perm. apply NoDup_fst_map_to_list. Qed.

Lemma sorted_items_keys_sorted {V} (d : gmap string V) :
  StronglySorted String.le (sorted_items d).*1.
Proof.
  apply (StronglySorted_fmap fst key_le); [done|]. apply sorted_items_sorted.
Qed.

Lemma elem_of_sorted_items_keys {V} (d : gmap string V) (k : string) :
  k ∈ (sorted_items d).*1 ↔ k ∈ dom d.
Proof.
  rewrite elem_of_dom, list_elem_of_fmap. split.
  - intros ([k' x] & -> & Hin). apply elem_of_sorted_items in Hin. eauto.
  - intros [x Hx]. exists (k, x). split; [done|].
    by apply elem_of_sorted_items.
Qed.

(** The key sequence of the traversal depends on the key set only. *)
Lemma sorted_items_keys_dom {V1 V2} (d1 : gmap string V1)
    (d2 : gmap string V2) :
  dom d1 = dom d2 → (sorted_items d1).*1 = (sorted_items d2).*1.
Proof.
  intros Hdom. apply (StronglySorted_unique String.le).
  - apply sorted_items_keys_sorted.
  - apply sorted_items_keys_sorted.
  - apply NoDup_Permutation; try apply sorted_items_keys_NoDup.
    intros k. by rewrite !elem_of_sorted_items_keys, Hdom.
Qed.

Lemma StronglySorted_filter {A} (R : relation A) (P : A → Prop)
    `{∀ x, Decision (P x)} (l : list A) :
  StronglySorted R l → StronglySorted R (filter P l).
Proof.
  induction 1 as [|x l Hl IH Hx]; [constructor|].
  rewrite filter_cons. destruct (decide (P x)); [|done].
  constructor; [done|]. apply Forall_forall. intros y Hy.
  apply list_elem_of_filter in Hy as [_ Hy].
  rewrite Forall_forall in Hx. by apply Hx.
Qed.

(** Deleting a key removes its item from the traversal and moves no
    other item. *)
Lemma sorted_items_delete {V} (d : gmap string V) (k : string) :
  sorted_items (delete k d) = filter (λ p, p.1 ≠ k) (sorted_items d).
Proof.
  apply (StronglySorted_unique_strong key_le).
  - intros [k1 x1] [k2 x2] Hin1 Hin2 H12 H21.
    apply elem_of_sorted_items in Hin1.
    apply list_elem_of_filter in Hin2 as [_ Hin2].
    apply elem_of_sorted_items in Hin2.
    assert (k1 = k2) as -> by by apply (anti_symm String.le).
    apply lookup_delete_Some in Hin1 as [_ Hin1]. congruence.
  - apply sorted_items_sorted.
  - apply StronglySorted_filter, sorted_items_sorted.
  - apply NoDup_Permutation.
    + rewrite sorted_items_perm. apply NoDup_map_to_list.
    + apply NoDup_filter. rewrite sorted_items_perm. apply NoDup_map_to_list.
    + intros [k' x]. rewrite list_elem_of_filter, !elem_of_sorted_items.
      rewrite lookup_delete_Some. simpl. split.
      * by intros [? ?].
      * by intros [? ?].
Qed.

(** ** Pairing values with exclusions *)

Lemma zip_filter_keys {A B} (k : string) (l1 : list (string * A)) :
  ∀ l2 : list (string * B),
    l1.*1 = l2.*1 →
    zip (filter (λ p, p.1 ≠ k) l1) (filter (λ p, p.1 ≠ k) l2)
    = filter (λ it, it.1.1 ≠ k) (zip l1 l2).
Proof.
  induction l1 as [|[k1 a] l1 IH]; intros [|[k2 b] l2] Hkeys;
    simplify_eq/=; [done|].
  rewrite !filter_cons. simpl. destruct (decide (k2 ≠ k)); simpl; auto.
  by rewrite IH.
Qed.

Lemma zip_keys_agree {A B} (l1 : list (string * A)) :
  ∀ (l2 : list (string * B)) it,
    l1.*1 = l2.*1 → it ∈ zip l1 l2 → it.1.1 = it.2.1.
Proof.
  induction l1 as [|[k1 a] l1 IH]; intros [|[k2 b] l2] it Hkeys Hin;
    simplify_eq/=; try by apply elem_of_nil in Hin.
  apply elem_of_cons in Hin as [->|Hin]; [done|]. by apply (IH l2).
Qed.

Lemma paired_items_delete (key_values : gmap string value)
    (key_excluded : gmap string excluded) (k : string) :
  dom key_values = dom key_excluded →
  paired_items (delete k key_values) (delete k key_excluded)
  = filter (λ it : item, it.1.1 ≠ k) (paired_items key_values key_excluded).
Proof.
  intros Hdom. unfold paired_items. rewrite !sorted_items_delete.
  apply zip_filter_keys. by apply sorted_items_keys_dom.
Qed.

(** With equal key sets every value is paired with its own exclusion. *)
Lemma paired_items_own_exclusion (key_values : gmap string value)
    (key_excluded : gmap string excluded) (it : item) :
  dom key_values = dom key_excluded →
  it ∈ paired_items key_values key_excluded →
  key_values !! it.1.1 = Some it.1.2 ∧ key_excluded !! it.1.1 = Some it.2.2.
Proof.
  intros Hdom Hin. unfold paired_items in Hin.
  pose proof (zip_keys_agree _ _ _
                (sorted_items_keys_dom _ _ Hdom) Hin) as Hk.
  destruct it as [[k v] [k' ex]]. simpl in *. subst k'.
  split.
  - apply elem_of_sorted_items. by apply elem_of_zip_l in Hin.
  - apply elem_of_sorted_items. by apply elem_of_zip_r in Hin.
Qed.

(** ** Items a loop passes over can be dropped *)

Lemma fold_result_filter {A S} (body : S → A → result S) (P : A → Prop)
    `{∀ x, Decision (P x)} (l : list A) :
  (∀ st x, x ∈ l → ¬ P x → body st x = inr st) →
  ∀ st, fold_result body st (filter P l) = fold_result body st l.
Proof.
  induction l as [|x l IH]; intros Hskip st; [done|].
  rewrite filter_cons. destruct (decide (P x)) as [HP|HP]; simpl.
  - destruct (body st x); simpl; [done|].
    apply IH. intros st' y Hy. apply Hskip. by right.
  - rewrite (Hskip st x) by (done || by left). simpl.
    apply IH. intros st' y Hy. apply Hskip. by right.
Qed.

Lemma for_each_filter {A} (body : A → io unit) (P : A → Prop)
    `{∀ x, Decision (P x)} (l : list A) :
  (∀ x, x ∈ l → ¬ P x → body x = ret tt) →
  for_each (filter P l) body = for_each l body.
Proof.
  induction l as [|x l IH]; intros Hskip; [done|].
  assert (for_each (filter P l) body = for_each l body) as IH'.
  { apply IH. intros y Hy. apply Hskip. by right. }
  rewrite filter_cons. destruct (decide (P x)) as [HP|HP]; simpl.
  - by rewrite IH'.
  - rewrite (Hskip x) by (done || by left). rewrite IH'. simpl.
    by destruct (for_each l body).
Qed.

Lemma foldl_filter {A S} (body : S → A → S) (P : A → Prop)
    `{∀ x, Decision (P x)} (l : list A) :
  (∀ st x, x ∈ l → ¬ P x → body st x = st) →
  ∀ st, foldl body st (filter P l) = foldl body st l.
Proof.
  induction l as [|x l IH]; intros Hskip st; [done|].
  rewrite filter_cons. destruct (decide (P x)) as [HP|HP]; simpl.
  - apply IH. intros st' y Hy. apply Hskip. by right.
  - rewrite (Hskip st x) by (done || by left).
    apply IH. intros st' y Hy. apply Hskip. by right.
Qed.

(** ** Exclusion *)

Lemma names_backend_py_in (f : output_format) (b : string)
    (spec : exclusion) :
  b ∈ backend_names f → names_backend b spec → py_in b spec = true.
Proof.
  intros Hb Hspec. destruct spec as [s|l]; simpl in *.
  - subst s. destruct f; simpl in Hb;
      repeat (apply elem_of_cons in Hb as [->|Hb]; [done|]);
      by apply elem_of_nil in Hb.
  - by apply bool_decide_eq_true.
Qed.

Section exclusion_filter.
  Context `{PyFloatText}.

Lemma human_row_skip (max_length : Z) (st : human_locals) (kv : string * value)
    (k : string) (ex : excluded) :
  human_excluded ex = true → human_row max_length st (kv, (k, ex)) = inr st.
Proof. intros Hex. destruct kv. simpl. by rewrite Hex. Qed.

Lemma tensorboard_row_skip (writer : option string) (step : Z)
    (kv : string * value) (k : string) (ex : excluded) :
  tensorboard_excluded ex = true →
  tensorboard_row writer step (kv, (k, ex)) = ret tt.
Proof. intros Hex. destruct kv. simpl. by rewrite Hex. Qed.

Lemma wandb_row_skip (d : list (string * wandb_value)) (kv : string * value)
    (k : string) (ex : excluded) :
  wandb_excluded ex = true → wandb_row d (kv, (k, ex)) = d.
Proof. intros Hex. destruct kv. simpl. by rewrite Hex. Qed.

(** When the two maps have the same key set, a key whose own exclusion
    passes the writer's skip test can be removed from both maps without
    changing what [write] does. *)
Lemma write_drops_excluded_key (f : output_format)
    (key_values : gmap string value) (key_excluded : gmap string excluded)
    (step : Z) (key : string) (ex : excluded) :
  dom key_values = dom key_excluded →
  key_excluded !! key = Some ex →
  writer_excluded f ex = true →
  write f key_values key_excluded step
  = write f (delete key key_values) (delete key key_excluded) step.
Proof.
  intros Hdom Hspec Hskip.
  assert (∀ it : item,
            it ∈ paired_items key_values key_excluded →
            ¬ it.1.1 ≠ key → it.2.2 = ex) as Hown.
  { intros it Hit Hk.
    destruct (paired_items_own_exclusion _ _ it Hdom Hit) as [_ Hex].
    destruct (decide (it.1.1 = key)) as [Heq|]; [|done].
    rewrite Heq in Hex. congruence. }
  destruct f as [| |file own_file max_length|writer|]; simpl in *;
    try done.
  - unfold human_write, human_rows. rewrite paired_items_delete by done.
    rewrite fold_result_filter; [done|].
    intros st [kv [k ex']] Hit Hk. apply human_row_skip.
    pose proof (Hown _ Hit Hk) as Hex. simpl in Hex. by subst ex'.
  - unfold tensorboard_write. rewrite paired_items_delete by done.
    rewrite for_each_filter; [done|].
    intros [kv [k ex']] Hit Hk. apply tensorboard_row_skip.
    pose proof (Hown _ Hit Hk) as Hex. simpl in Hex. by subst ex'.
  - unfold wandb_write. rewrite paired_items_delete by done.
    rewrite foldl_filter; [done|].
    intros d [kv [k ex']] Hit Hk. apply wandb_row_skip.
    pose proof (Hown _ Hit Hk) as Hex. simpl in Hex. by subst ex'.
Qed.

Lemma names_backend_excluded (f : output_format) (b : string)
    (spec : exclusion) :
  b ∈ backend_names f → names_backend b spec →
  writer_excluded f (Some spec) = true.
Proof.
  intros Hb Hnames.
  pose proof (names_backend_py_in f b spec Hb Hnames) as Hin.
  destruct f; simpl in *; try by apply elem_of_nil in Hb.
  - apply elem_of_cons in Hb as [->|Hb]; [by rewrite Hin|].
    apply list_elem_of_singleton in Hb as ->. rewrite Hin.
    by destruct (py_in "stdout" spec).
  - by apply list_elem_of_singleton in Hb as ->.
  - by apply list_elem_of_singleton in Hb as ->.
Qed.

(** C5, amended.  For every key-value writer and every [write] call whose
    value map and exclusion map have the same key set, a key whose
    exclusion spec names the writer's backend (as a single string or as a
    member of a tuple) contributes nothing: the call has the same effects
    and the same outcome as the call with that key removed from both
    maps. *)
Theorem excluded_key_contributes_nothing (f : output_format)
    (key_values : gmap string value) (key_excluded : gmap string excluded)
    (step : Z) (key : string) (spec : exclusion) (b : string) :
  dom key_values = dom key_excluded →
  key_excluded !! key = Some (Some spec) →
  b ∈ backend_names f →
  names_backend b spec →
  write f key_values key_excluded step
  = write f (delete key key_values) (delete key key_excluded) step.
Proof.
  intros Hdom Hspec Hb Hnames.
  apply (write_drops_excluded_key f _ _ step key (Some spec)); try done.
  by apply (names_backend_excluded f b).
Qed.

End exclusion_filter.

(** The theorem at a concrete call: ["a"] is excluded for TensorBoard by a
    tuple, ["b"] is not excluded. *)
Lemma excluded_key_contributes_nothing_witness :
  let key_values : gmap string value :=
    <["a" := VFloat 1]> (<["b" := VInt 2]> ∅) in
  let key_excluded : gmap string excluded :=
    <["a" := Some (ExTuple ["stdout"; "tensorboard"])]> (<["b" := None]> ∅) in
  write (H := float_text_stub) (TensorBoardOutputFormat (Some "runs"))
        key_values key_excluded 7
  = write (H := float_text_stub) (TensorBoardOutputFormat (Some "runs"))
          (delete "a" key_values) (delete "a" key_excluded) 7.
Proof.
  apply (excluded_key_contributes_nothing (H := float_text_stub)
           (TensorBoardOutputFormat (Some "runs")) _ _ 7 "a"
           (ExTuple ["stdout"; "tensorboard"]) "tensorboard").
  - by rewrite !dom_insert_L, !dom_empty_L.
  - by rewrite lookup_insert_eq.
  - simpl. by apply list_elem_of_singleton.
  - simpl. by right; left.
Defined.

(** C5 (as stated) fails.  After [record_mean("a", None)],
    [record("b", 1.0, exclude="tensorboard")] and [record("c", 2)] the
    value map has keys a, b, c and the exclusion map has keys b, c.  The
    positional pairing hands ["b"] the exclusion of ["c"], so the
    TensorBoard writer emits [add_scalar("b", 1.0)] although the exclusion
    spec of ["b"] names ["tensorboard"]; without ["b"] it emits only the
    flush. *)
Lemma excluded_key_written_counterexample :
  let tb := TensorBoardOutputFormat (Some "runs") in
  let lg := record (record (record_mean (Logger_init None [tb])
                                        "a" VNone None).1
                           "b" (VFloat 1) (Some (ExStr "tensorboard")))
                   "c" (VInt 2) None in
  name_to_excluded lg !! "b" = Some (Some (ExStr "tensorboard")) ∧
  names_backend "tensorboard" (ExStr "tensorboard") ∧
  "tensorboard" ∈ backend_names tb ∧
  write (H := float_text_stub) tb (name_to_value lg) (name_to_excluded lg) 0
  = ([SummaryWriterCall "runs" (add_scalar "b" (VFloat 1) 0);
      SummaryWriterCall "runs" writer_flush], inr tt) ∧
  write (H := float_text_stub) tb (delete "b" (name_to_value lg))
        (delete "b" (name_to_excluded lg)) 0
  = ([SummaryWriterCall "runs" writer_flush], inr tt).
Proof.
  split; [by vm_compute|]. split; [done|].
  split; [by apply list_elem_of_singleton|]. split; by vm_compute.
Qed.

(** ** The console/file writer's skip test *)

Lemma str_contains_substring (sub s : string) :
  sub ≠ "" →
  str_contains sub s = true ↔
  ∃ m, String.substring m (String.length sub) s = sub.
Proof.
  intros Hsub. unfold str_contains.
  destruct (String.index 0 sub s) as [m|] eqn:E.
  - split; [|done]. intros _. exists m. by eapply String.index_correct1.
  - split; [done|]. intros [m Hm].
    by destruct (String.index_correct3 0 m sub s E Hsub (Nat.le_0_l m)).
Qed.

Section console_skip.
  Context `{PyFloatText}.


End console_skip.


(** ** Truncation in the console/file writer *)

Lemma string_length_app (s1 s2 : string) :
  String.length (s1 +:+ s2) = String.length s1 + String.length s2.
Proof. induction s1 as [|a s1 IH]; simpl; [done|]. by rewrite IH. Qed.

Lemma string_length_prefix (n : nat) (s : string) :
  n ≤ String.length s → String.length (String.substring 0 n s) = n.
Proof.
  revert n. induction s as [|a s IH]; intros [|n] Hn; simpl in *;
    try done; try lia.
  rewrite IH; lia.
Qed.

(** For a maximum of at least 3, a string longer than the maximum is cut
    to its first [max_length - 3] characters plus the ellipsis, which is
    exactly [max_length] characters; other strings are kept. *)
Lemma truncate_long (max_length : Z) (s : string) :
  (3 ≤ max_length)%Z →
  (max_length < Z.of_nat (String.length s))%Z →
  _truncate max_length s
  = String.substring 0 (Z.to_nat (max_length - 3)) s +:+ "..." ∧
  Z.of_nat (String.length (_truncate max_length s)) = max_length.
Proof.
  intros H3 Hlong. unfold _truncate, slice_to.
  rewrite (proj2 (Z.ltb_lt _ _) Hlong).
  assert ((max_length - 3 <? 0)%Z = false) as -> by (apply Z.ltb_ge; lia).
  rewrite Z.min_l by lia. split; [done|].
  rewrite string_length_app, string_length_prefix by lia. simpl. lia.
Qed.

Lemma truncate_short (max_length : Z) (s : string) :
  (Z.of_nat (String.length s) ≤ max_length)%Z → _truncate max_length s = s.
Proof.
  intros Hshort. unfold _truncate.
  by rewrite (proj2 (Z.ltb_ge _ _) Hshort).
Qed.

Section truncation.
  Context `{PyFloatText}.

Lemma human_row_rows (max_length : Z) (st st' : human_locals) (it : item) :
  human_row max_length st it = inr st' →
  ∃ rows, key2str st' = key2str st ++ rows ∧
          rows_of_item max_length it rows.
Proof.
  destruct it as [[key value] [k ex]]. unfold rows_of_item. simpl.
  destruct (human_excluded ex).
  { intros [= <-]. exists []. by rewrite (right_id_L [] (++)). }
  destruct (human_value_str value) as [e|value_str]; simpl; [done|].
  intros [= <-]. simpl.
  destruct (0 <? str_find "/" key)%Z; simpl;
    [destruct (decide (_ ∈ tags st)); simpl|].
  - eexists [_]. split; [reflexivity|].
    eexists [], _, value_str. split; [done|]. split; [reflexivity|]. by left.
  - eexists [_; _]. split; [by rewrite <- (assoc_L (++))|].
    eexists [_], _, value_str. split; [done|]. split; [reflexivity|].
    right. by eexists.
  - eexists [_]. split; [reflexivity|].
    eexists [], _, value_str. split; [done|]. split; [reflexivity|]. by left.
Qed.

Lemma human_fold_rows (max_length : Z) (items : list item) :
  ∀ st st',
    fold_result (human_row max_length) st items = inr st' →
    ∃ rows, key2str st' = key2str st ++ concat rows ∧
            Forall2 (rows_of_item max_length) items rows.
Proof.
  induction items as [|it items IH]; intros st st' Hrun; simpl in *.
  - injection Hrun as <-. exists []. simpl.
    by rewrite (right_id_L [] (++)).
  - destruct (human_row max_length st it) as [e|st1] eqn:Hrow;
      simpl in Hrun; [done|].
    destruct (human_row_rows _ _ _ _ Hrow) as (r & Hr & Hspec).
    destruct (IH _ _ Hrun) as (rows & Hrows & Hall).
    exists (r :: rows). simpl. rewrite Hrows, Hr, (assoc_L (++)).
    split; [done|]. by constructor.
Qed.

Lemma human_fold_total (max_length : Z) (items : list item) :
  Forall printable items →
  ∀ st, ∃ st', fold_result (human_row max_length) st items = inr st'.
Proof.
  induction 1 as [|[[key value] [k ex]] items Hit _ IH]; intros st; simpl.
  - by eexists.
  - destruct Hit as [Hex|[s Hs]]; simpl in *.
    + rewrite Hex. simpl. apply IH.
    + destruct (human_excluded ex); simpl; [apply IH|].
      rewrite Hs. simpl. apply IH.
Qed.


End truncation.



(** ** Clients of the logger *)

Lemma union_singleton_idemp (key : string) (X : gset string) :
  {[key]} ∪ ({[key]} ∪ X) = {[key]} ∪ X.
Proof. by rewrite (assoc_L (∪)), (idemp_L (∪)). Qed.

Lemma getitem_dom {V} (d : gmap string V) (key : string) (x : V) :
  dom (getitem d key x).2 = {[key]} ∪ dom d.
Proof.
  unfold getitem. destruct (d !! key) eqn:Hk; simpl.
  - symmetry. apply subseteq_union_1_L, singleton_subseteq_l.
    by apply elem_of_dom_2 in Hk.
  - by rewrite dom_insert_L.
Qed.

Lemma getitem_lookup {V} (d : gmap string V) (key : string) (x : V) :
  (getitem d key x).2 !! key = Some (getitem d key x).1.
Proof.
  unfold getitem. destruct (d !! key) eqn:Hk; simpl; [done|].
  by rewrite lookup_insert_eq.
Qed.

(** The three maps after [record_mean], as far as their key sets go. *)
Lemma record_mean_dom (lg : Logger) (key : string) (v : value)
    (exclude : excluded) :
  let lg' := (record_mean lg key v exclude).1 in
  dom (name_to_value lg') = {[key]} ∪ dom (name_to_value lg) ∧
  (dom (name_to_count lg') = dom (name_to_count lg) ∧ v = VNone ∨
   dom (name_to_count lg') = {[key]} ∪ dom (name_to_count lg) ∧ v ≠ VNone) ∧
  (name_to_excluded lg' = name_to_excluded lg ∨
   dom (name_to_excluded lg') = {[key]} ∪ dom (name_to_excluded lg) ∧
   (record_mean lg key v exclude).2 = inr tt ∧ v ≠ VNone).
Proof.
  unfold record_mean.
  pose proof (getitem_dom (name_to_value lg) key (VFloat 0)) as Hv.
  pose proof (getitem_dom (name_to_count lg) key 0) as Hc.
  destruct (getitem (name_to_value lg) key (VFloat 0)) as [old_val values].
  destruct (getitem (name_to_count lg) key 0) as [count counts].
  simpl in Hv, Hc.
  destruct v; simpl;
    try (split; [by rewrite dom_insert_L|split; [by left|by left]]);
    (destruct (mean_update old_val count _) as [e|new]; simpl;
     [split; [done|split; [by right|by left]]
     |split; [by rewrite dom_insert_L, Hv, union_singleton_idemp
             |split; [right; split;
                        [by rewrite dom_insert_L, Hc, union_singleton_idemp
                        |done]
                     |right; split; [by rewrite dom_insert_L|done]]]]).
Qed.

Lemma perform_all_invariant `{PyFloatText} (P : Logger → Prop)
    (Q : call → Prop) :
  (∀ lg c, P lg → Q c → P (perform lg c)) →
  ∀ cs lg, P lg → Forall Q cs → P (perform_all lg cs).
Proof.
  intros Hstep cs. induction cs as [|c cs IH]; intros lg HP HQ; [done|].
  inversion HQ; subst. simpl. apply IH; [|done]. by apply Hstep.
Qed.

Lemma perform_keeps_maps `{PyFloatText} (lg : Logger) (c : call) :
  match c with
  | call_log _ _ | call_set_level _ | call_close =>
      name_to_value (perform lg c) = name_to_value lg ∧
      name_to_count (perform lg c) = name_to_count lg ∧
      name_to_excluded (perform lg c) = name_to_excluded lg
  | call_dump _ =>
      perform lg c = lg ∨ perform lg c = set_maps lg ∅ ∅ ∅
  | _ => True
  end.
Proof.
  destruct c; simpl; try done.
  - unfold dump. destruct (decide _); [by left|].
    destruct (for_each _ _).2; [by left|by right].
  - unfold close. by destruct (close_formats _).
Qed.

Lemma perform_keys_have_values `{PyFloatText} (lg : Logger) (c : call) :
  keys_have_values lg → keys_have_values (perform lg c).
Proof.
  intros [Hc He]. pose proof (perform_keeps_maps lg c) as Hm.
  unfold keys_have_values.
  destruct c as [key v ex|key v ex| | | |].
  - split; simpl; rewrite !dom_insert_L.
    + etrans; [exact Hc|apply union_subseteq_r].
    + by apply union_mono_l.
  - destruct (record_mean_dom lg key v ex) as (Hv' & Hc' & He').
    split; simpl; rewrite Hv'.
    + destruct Hc' as [[-> _]|[-> _]].
      * etrans; [exact Hc|apply union_subseteq_r].
      * by apply union_mono_l.
    + destruct He' as [->|[-> _]].
      * etrans; [exact He|apply union_subseteq_r].
      * by apply union_mono_l.
  - destruct Hm as [->| ->]; [done|]. split; simpl; by rewrite dom_empty_L.
  - destruct Hm as (-> & -> & ->). by split.
  - destruct Hm as (-> & -> & ->). by split.
  - destruct Hm as (-> & -> & ->). by split.
Qed.

Lemma record_mean_numeric_exclusion_defined (lg : Logger) (key : string)
    (v : value) (exclude : excluded) :
  is_Some (as_number v) →
  exclusion_defined lg →
  exclusion_defined (record_mean lg key v exclude).1.
Proof.
  intros [q Hq] Hdef. unfold exclusion_defined in *.
  destruct (name_to_value lg !! key) as [old|] eqn:Hold.
  - destruct (record_mean_dom lg key v exclude) as (Hv' & _ & He').
    simpl in Hv', He'. rewrite Hv'.
    assert (key ∈ dom (name_to_value lg)) as Hin by by eapply elem_of_dom_2.
    assert ({[key]} ∪ dom (name_to_value lg) = dom (name_to_value lg)) as ->.
    { by apply subseteq_union_1_L, singleton_subseteq_l. }
    destruct He' as [->|[-> _]]; [done|].
    etrans; [exact Hdef|apply union_subseteq_r].
  - destruct (record_mean_number lg key v exclude q Hq) as (q' & -> & _).
    { unfold number_or_absent. by rewrite Hold. }
    simpl. rewrite !dom_insert_L. by apply union_mono_l.
Qed.

Lemma perform_exclusion_defined `{PyFloatText} (lg : Logger) (c : call) :
  exclusion_defined lg → numeric c → exclusion_defined (perform lg c).
Proof.
  intros Hdef Hnum. pose proof (perform_keeps_maps lg c) as Hm.
  unfold exclusion_defined.
  destruct c as [key v ex|key v ex| | | |].
  - simpl. rewrite !dom_insert_L. by apply union_mono_l.
  - by apply record_mean_numeric_exclusion_defined.
  - destruct Hm as [->| ->]; [done|]. simpl. by rewrite dom_empty_L.
  - destruct Hm as (-> & _ & ->). done.
  - destruct Hm as (-> & _ & ->). done.
  - destruct Hm as (-> & _ & ->). done.
Qed.

Lemma perform_all_keys_have_values `{PyFloatText} (lg : Logger)
    (cs : list call) :
  keys_have_values lg → keys_have_values (perform_all lg cs).
Proof.
  intros Hlg.
  apply (perform_all_invariant keys_have_values (λ _, True)
           (λ lg c Hlg _, perform_keys_have_values lg c Hlg)); [done|].
  by apply Forall_true.
Qed.

Lemma perform_all_exclusion_defined `{PyFloatText} (lg : Logger)
    (cs : list call) :
  exclusion_defined lg → Forall numeric cs →
  exclusion_defined (perform_all lg cs).
Proof.
  apply (perform_all_invariant exclusion_defined numeric
           (λ lg c, perform_exclusion_defined lg c)).
Qed.

Lemma Logger_init_keys (folder : option string) (fmts : list output_format) :
  keys_have_values (Logger_init folder fmts) ∧
  exclusion_defined (Logger_init folder fmts).
Proof. by repeat split. Qed.



(** X2.  Whatever a client calls on a fresh logger, in whatever order and
    whether or not the calls raise, every key that has a running count or
    a stored exclusion also has a stored value. *)
Theorem client_keys_have_values `{PyFloatText} (folder : option string)
    (fmts : list output_format) (cs : list call) :
  keys_have_values (perform_all (Logger_init folder fmts) cs).
Proof.
  apply perform_all_keys_have_values, Logger_init_keys.
Qed.





(** ** Dumping twice *)

Lemma paired_items_empty : paired_items ∅ ∅ = [].
Proof.
  unfold paired_items, sorted_items. by rewrite !map_to_list_empty.
Qed.

Lemma bind_raise_outcome {A} (m : io A) (e : exn) :
  ∃ e', (m ;; raise (A := unit) e).2 = inl e'.
Proof. destruct m as [evs [e'|a]]; simpl; by eexists. Qed.

(** A writer whose [write] has returned once writes [empty_write] when it
    is handed empty maps, and returns. *)
Lemma write_empty `{PyFloatText} (f : output_format)
    (key_values : gmap string value) (key_excluded : gmap string excluded)
    (step step' : Z) :
  (write f key_values key_excluded step).2 = inr tt →
  write f ∅ ∅ step' = (empty_write f, inr tt).
Proof.
  destruct f as [| |file own_file max_length|[log_dir|]|];
    cbn [write empty_write].
  - done.
  - done.
  - intros _. unfold human_write. by rewrite paired_items_empty.
  - intros _. unfold tensorboard_write. by rewrite paired_items_empty.
  - unfold tensorboard_write. cbn [writer_do].
    destruct (bind_raise_outcome
                (for_each (paired_items key_values key_excluded)
                          (tensorboard_row None step)) AttributeError)
      as [e' He'].
    by rewrite He'.
  - intros _. unfold wandb_write. by rewrite paired_items_empty.
Qed.

Lemma for_each_returns {A} (l : list A) (body : A → io unit)
    (evs : A → list event) :
  Forall (λ x, body x = (evs x, inr tt)) l →
  for_each l body = (concat (evs <$> l), inr tt).
Proof.
  induction 1 as [|x l Hx _ IH]; [done|].
  simpl. rewrite Hx, IH. done.
Qed.

Lemma dump_returned `{PyFloatText} (lg : Logger) (step : Z) :
  level lg ≠ DISABLED →
  (dump lg step).2.2 = inr tt →
  (dump lg step).1 = set_maps lg ∅ ∅ ∅ ∧
  Forall (λ f, is_KVWriter f = true →
               (write f (name_to_value lg) (name_to_excluded lg) step).2
               = inr tt) (output_formats lg).
Proof.
  intros Hlevel. unfold dump.
  destruct (decide (level lg = DISABLED)) as [|_]; [done|].
  pose proof (for_each_outcome (output_formats lg) (λ _format,
    if is_KVWriter _format
    then write _format (name_to_value lg) (name_to_excluded lg) step
    else ret tt)) as Hout.
  destruct (for_each _ _).2 as [e|[]] eqn:Hrun; simpl; rewrite ?Hrun; [done|].
  intros _. split; [done|]. destruct Hout as [Hall _].
  eapply Forall_impl; [exact Hall|]. intros f Hf Hkv. simpl in Hf.
  by rewrite Hkv in Hf.
Qed.

(** X5.  A [dump] that follows a [dump] that returned, with nothing
    recorded in between, returns as well and leaves the maps empty: the
    console writers only warn that the dict is empty, the TensorBoard
    writers only flush, the WandB writer logs an empty dict. *)
Theorem dump_after_dump `{PyFloatText} (lg : Logger) (step step' : Z) :
  level lg ≠ DISABLED →
  (dump lg step).2.2 = inr tt →
  dump (dump lg step).1 step'
  = ((dump lg step).1, (concat (empty_write <$> output_formats lg), inr tt)) ∧
  name_to_value (dump lg step).1 = ∅ ∧
  name_to_count (dump lg step).1 = ∅ ∧
  name_to_excluded (dump lg step).1 = ∅.
Proof.
  intros Hlevel Hret.
  destruct (dump_returned lg step Hlevel Hret) as [-> Hall].
  split; [|done]. unfold dump. simpl.
  destruct (decide (level lg = DISABLED)) as [|_]; [done|].
  rewrite (for_each_returns _ _ empty_write); [done|].
  eapply Forall_impl; [exact Hall|]. intros f Hf. simpl in Hf.
  destruct (is_KVWriter f) eqn:Hkv.
  - eapply write_empty. by apply Hf.
  - by destruct f.
Qed.

Lemma dump_after_dump_witness :
  let lg := record (Logger_init None [HumanOutputFormat "<stdout>" false 36;
                                      TensorBoardOutputFormat (Some "runs");
                                      SeqWriter; WANDBOutputFormat])
                   "loss" (VInt 1) None in
  dump (H := float_text_stub) (dump (H := float_text_stub) lg 0).1 1
  = ((dump (H := float_text_stub) lg 0).1,
     ([Warning "Tried to write empty key-value dict";
       SummaryWriterCall "runs" writer_flush; WandbLog []], inr tt)) ∧
  name_to_value (dump (H := float_text_stub) lg 0).1 = ∅ ∧
  name_to_count (dump (H := float_text_stub) lg 0).1 = ∅ ∧
  name_to_excluded (dump (H := float_text_stub) lg 0).1 = ∅.
Proof.
  intros lg.
  apply (dump_after_dump (H := float_text_stub) lg 0 1); [done|reflexivity].
Defined.

(** ** The console table *)

Section console_table.
Context `{PyFloatText}.

Lemma human_value_str_raises (v : value) (e : exn) :
  human_value_str v = inl e →
  ∃ d, d ∈ ["video"; "figure"; "image"] ∧
       e = FormatUnsupportedError ["stdout"; "log"] d.
Proof.
  destruct v; simpl; intros [= <-]; eexists; (split; [|done]);
    repeat first [by apply list_elem_of_here | apply list_elem_of_further].
Qed.

Lemma human_row_raises (max_length : Z) (st : human_locals) (it : item)
    (e : exn) :
  human_row max_length st it = inl e →
  human_excluded it.2.2 = false ∧ human_value_str it.1.2 = inl e.
Proof.
  destruct it as [[key value] [k ex]]. unfold human_row. simpl.
  destruct (human_excluded ex); [done|].
  destruct (human_value_str value) as [e'|s]; simpl; [|done].
  by intros [= <-].
Qed.

Lemma human_row_returns (max_length : Z) (st st' : human_locals) (it : item) :
  human_row max_length st it = inr st' → printable it.
Proof.
  destruct it as [[key value] [k ex]]. unfold human_row, printable. simpl.
  destruct (human_excluded ex); [by left|].
  destruct (human_value_str value) as [e'|s]; simpl; [done|].
  intros _. right. by eexists.
Qed.

Lemma human_fold_outcome (max_length : Z) (items : list item) :
  ∀ st,
    match fold_result (human_row max_length) st items with
    | inl e =>
        ∃ it, it ∈ items ∧ human_excluded it.2.2 = false ∧
              human_value_str it.1.2 = inl e
    | inr _ => Forall printable items
    end.
Proof.
  induction items as [|it items IH]; intros st; simpl; [done|].
  destruct (human_row max_length st it) as [e|st1] eqn:Hrow; simpl.
  - apply human_row_raises in Hrow. exists it. split; [|done].
    apply list_elem_of_here.
  - apply human_row_returns in Hrow. specialize (IH st1).
    destruct (fold_result _ st1 items) as [e|st2].
    + destruct IH as (it' & Hin & Hit'). exists it'. split; [|done].
      by apply list_elem_of_further.
    + by constructor.
Qed.


Lemma str_repeat_length (s : string) (n : nat) :
  String.length (str_repeat s n) = n * String.length s.
Proof.
  induction n as [|n IH]; simpl; [done|]. by rewrite string_length_app, IH.
Qed.

Lemma max_list_bound (b : nat) (l : list nat) :
  Forall (λ n, n ≤ b) l → max_list l ≤ b.
Proof.
  induction 1 as [|n l Hn _ IH]; simpl; [lia|]. by apply Nat.max_lub.
Qed.

(** Every line of the table has the table's width. *)
Lemma human_lines_length (key2str : list (string * string)) (line : string) :
  line ∈ human_lines key2str → String.length line = table_width key2str.
Proof.
  unfold human_lines, table_width.
  set (key_width := max_list (String.length <$> key2str.*1)).
  set (val_width := max_list (String.length <$> key2str.*2)).
  intros Hline.
  apply elem_of_app in Hline as [Hline|Hline];
    [|apply elem_of_app in Hline as [Hline|Hline]].
  - apply list_elem_of_singleton in Hline as ->.
    rewrite str_repeat_length. simpl. lia.
  - apply list_elem_of_fmap in Hline as ([key value] & -> & Hrow).
    assert (String.length key ≤ key_width) as Hk.
    { apply max_list_elem_of_le, list_elem_of_fmap. exists key.
      split; [done|]. apply list_elem_of_fmap. by exists (key, value). }
    assert (String.length value ≤ val_width) as Hv.
    { apply max_list_elem_of_le, list_elem_of_fmap. exists value.
      split; [done|]. apply list_elem_of_fmap. by exists (key, value). }
    rewrite !string_length_app, !str_repeat_length. simpl. lia.
  - apply list_elem_of_singleton in Hline as ->.
    rewrite str_repeat_length. simpl. lia.
Qed.

Lemma truncate_length_le (max_length : Z) (s : string) :
  (3 ≤ max_length)%Z →
  (Z.of_nat (String.length (_truncate max_length s)) ≤ max_length)%Z.
Proof.
  intros H3.
  destruct (decide (max_length < Z.of_nat (String.length s))%Z) as [Hlt|Hge].
  - destruct (truncate_long max_length s H3 Hlt) as [_ ->]. lia.
  - rewrite truncate_short; lia.
Qed.

(** No cell of the table is longer than the maximum. *)
Lemma human_rows_cells (max_length : Z) (items : list item)
    (st : human_locals) :
  (3 ≤ max_length)%Z →
  human_rows max_length items = inr st →
  Forall (λ row, String.length row.1 ≤ Z.to_nat max_length ∧
                 String.length row.2 ≤ Z.to_nat max_length) (key2str st).
Proof.
  intros H3 Hrows. unfold human_rows in Hrows.
  destruct (human_fold_rows max_length items _ _ Hrows) as (rows & -> & Hall).
  simpl. clear Hrows.
  assert (∀ s, String.length (_truncate max_length s) ≤ Z.to_nat max_length)
    as Hcell.
  { intros s. pose proof (truncate_length_le max_length s H3). lia. }
  induction Hall as [|it row items rows Hit _ IH]; simpl; [constructor|].
  apply Forall_app. split; [|exact IH].
  unfold rows_of_item in Hit.
  destruct (human_excluded it.2.2); [subst; constructor|].
  destruct Hit as (header & dk & vs & _ & -> & Hheader).
  apply Forall_app. split.
  - destruct Hheader as [->|[t ->]]; [constructor|].
    constructor; [|constructor]. split; [apply Hcell|simpl; lia].
  - constructor; [|constructor]. split; apply Hcell.
Qed.

(** X7.  The table that [HumanOutputFormat.write] prints is rectangular:
    the two lines of dashes and every row have the same length, the
    widest key cell plus the widest value cell plus 7.  For a maximum
    length of at least 3 that width is at most [2 * max_length + 7], as
    the constructor's documentation says. *)
Theorem human_table_width (max_length : Z) (items : list item)
    (st : human_locals) (line : string) :
  human_rows max_length items = inr st →
  line ∈ human_lines (key2str st) →
  String.length line = table_width (key2str st) ∧
  ((3 ≤ max_length)%Z →
   (Z.of_nat (String.length line) ≤ 2 * max_length + 7)%Z).
Proof.
  intros Hrows Hline. pose proof (human_lines_length _ _ Hline) as Hlen.
  split; [done|]. intros H3. rewrite Hlen. unfold table_width.
  pose proof (human_rows_cells max_length items st H3 Hrows) as Hcells.
  assert (max_list (String.length <$> (key2str st).*1) ≤ Z.to_nat max_length).
  { apply max_list_bound. rewrite <- list_fmap_compose.
    apply Forall_fmap. eapply Forall_impl; [exact Hcells|].
    by intros row [? _]. }
  assert (max_list (String.length <$> (key2str st).*2) ≤ Z.to_nat max_length).
  { apply max_list_bound. rewrite <- list_fmap_compose.
    apply Forall_fmap. eapply Forall_impl; [exact Hcells|].
    by intros row [_ ?]. }
  lia.
Qed.

End console_table.

Lemma human_table_width_witness :
  String.length "|    loss | 1            |"
  = table_width [("train/", ""); ("   loss", "1"); ("z", "a long value")] ∧
  ((3 ≤ 36)%Z →
   (Z.of_nat (String.length "|    loss | 1            |") ≤ 2 * 36 + 7)%Z).
Proof.
  apply (human_table_width (H := float_text_stub) 36
           [(("train/loss", VInt 1), ("train/loss", None));
            (("train/secret", VInt 2), ("train/secret", Some (ExStr "stdout")));
            (("z", VStr "a long value"), ("z", None))]
           {| key2str := [("train/", ""); ("   loss", "1");
                          ("z", "a long value")];
              tag := Some "train/"; tags := {["train/"]} ∪ ∅ |}
           "|    loss | 1            |").
  - reflexivity.
  - apply list_elem_of_further, list_elem_of_further, list_elem_of_here.
Defined.

(** ** Tag headers *)

Section tag_headers.
Context `{PyFloatText}.

(** One iteration on an item that is not skipped: the item's tag, when it
    has one, joins the tags, and the rows grow by the item's own row plus
    one header when the tag is new. *)
Lemma human_row_count (max_length : Z) (st st' : human_locals)
    (kv : string * value) (k : string) (ex : excluded) :
  human_excluded ex = false →
  human_row max_length st (kv, (k, ex)) = inr st' →
  tags st' = from_option singleton ∅ (key_tag kv.1) ∪ tags st ∧
  length (key2str st') + size (tags st)
  = length (key2str st) + 1 + size (tags st').
Proof.
  destruct kv as [key value]. intros Hex. unfold human_row, key_tag. simpl.
  rewrite Hex.
  destruct (human_value_str value) as [e|value_str]; simpl; [done|].
  destruct (0 <? str_find "/" key)%Z.
  - destruct (decide (slice_to key (str_find "/" key + 1) ∈ tags st))
      as [Hin|Hnew]; intros [= <-]; simpl.
    + split; [|rewrite length_app; simpl; lia].
      symmetry. by apply subseteq_union_1_L, singleton_subseteq_l.
    + split; [done|]. rewrite !length_app. simpl.
      rewrite size_union by by apply disjoint_singleton_l.
      rewrite size_singleton. lia.
  - intros [= <-]. simpl. split.
    + by rewrite (left_id_L ∅ (∪)).
    + rewrite length_app. simpl. lia.
Qed.

Lemma human_fold_count (max_length : Z) (items : list item) :
  ∀ st st',
    fold_result (human_row max_length) st items = inr st' →
    tags st' ≡ list_to_set (omap (λ it : item, key_tag it.1.1)
                                 (human_printed items)) ∪ tags st ∧
    length (key2str st') + size (tags st)
    = length (key2str st) + length (human_printed items) + size (tags st').
Proof.
  induction items as [|[kv [k ex]] items IH]; intros st st';
    cbn [fold_result].
  - intros [= <-]. split; [|simpl; lia]. simpl. by rewrite (left_id ∅ (∪)).
  - destruct (human_row max_length st (kv, (k, ex))) as [e|st1] eqn:Hrow;
      cbn [rbind]; [done|].
    intros Hfold. destruct (IH st1 st' Hfold) as [Htags Hlen].
    unfold human_printed in *. rewrite filter_cons. simpl.
    destruct (human_excluded ex) eqn:Hex.
    + rewrite (human_row_skip max_length st kv k ex Hex) in Hrow.
      injection Hrow as <-.
      rewrite decide_False by done. done.
    + rewrite decide_True by done.
      destruct (human_row_count max_length st st1 kv k ex Hex Hrow)
        as [Htags1 Hlen1].
      split.
      * rewrite Htags, Htags1. simpl.
        destruct (key_tag kv.1) as [t|]; simpl.
        -- rewrite (assoc (∪) _ {[t]}). f_equiv. apply (comm (∪)).
        -- by rewrite (left_id ∅ (∪)).
      * simpl. lia.
Qed.

(** X8.  The rows of the table are the items that are not skipped plus
    one header per distinct tag among their keys: a tag that several keys
    share gets a single header, and the table has two more lines than
    rows. *)
Theorem human_rows_count (max_length : Z) (items : list item)
    (st : human_locals) :
  human_rows max_length items = inr st →
  tags st ≡ list_to_set (omap (λ it : item, key_tag it.1.1)
                              (human_printed items)) ∧
  length (key2str st) = length (human_printed items) + size (tags st) ∧
  length (human_lines (key2str st)) = length (key2str st) + 2.
Proof.
  intros Hrows. unfold human_rows in Hrows.
  destruct (human_fold_count max_length items _ _ Hrows) as [Htags Hlen].
  cbn [key2str tags] in Htags, Hlen. rewrite size_empty in Hlen.
  simpl in Hlen.
  split; [by rewrite Htags, (right_id ∅ (∪))|].
  split; [lia|].
  unfold human_lines. rewrite !length_app, length_fmap. simpl. lia.
Qed.

End tag_headers.

Lemma human_rows_count_witness :
  let items : list item :=
    [(("eval/reward", VInt 7), ("eval/reward", None));
     (("train/loss", VInt 1), ("train/loss", None));
     (("train/lr", VInt 2), ("train/lr", Some (ExStr "log")));
     (("train/steps", VInt 3), ("train/steps", None))] in
  let st := {| key2str := [("eval/", ""); ("   reward", "7"); ("train/", "");
                           ("   loss", "1"); ("   steps", "3")];
               tag := Some "train/";
               tags := {["train/"]} ∪ ({["eval/"]} ∪ ∅) |} in
  tags st ≡ list_to_set (omap (λ it : item, key_tag it.1.1)
                              (human_printed items)) ∧
  length (key2str st) = length (human_printed items) + size (tags st) ∧
  length (human_lines (key2str st)) = length (key2str st) + 2.
Proof.
  intros items st.
  apply (human_rows_count (H := float_text_stub) 36 items st). reflexivity.
Defined.

(** ** Messages *)

Lemma string_app_assoc (s1 s2 s3 : string) :
  (s1 +:+ s2) +:+ s3 = s1 +:+ s2 +:+ s3.
Proof.
  induction s1 as [|a s1 IH]; [done|]. exact (f_equal (String a) IH).
Qed.

Lemma string_app_nil_r (s : string) : s +:+ "" = s.
Proof.
  induction s as [|a s IH]; [done|]. exact (f_equal (String a) IH).
Qed.

Lemma written_app (file : string) (evs1 evs2 : list event) :
  written file (evs1 ++ evs2) = written file evs1 +:+ written file evs2.
Proof.
  induction evs1 as [|ev evs1 IH]; simpl; [done|].
  destruct ev; try done.
  destruct (decide _); [|done]. by rewrite IH, string_app_assoc.
Qed.

(** The loop of [write_sequence]: the elements, one space between two of
    them and none after the last. *)
Lemma human_write_elems_written (file : string) (sequence : list string) :
  ∃ evs,
    human_write_elems file sequence = (evs, inr tt) ∧
    written file evs = str_join " " sequence ∧
    Forall (λ ev, ∃ data, ev = FileWrite file data) evs ∧
    length evs = 2 * length sequence - 1.
Proof.
  induction sequence as [|elem rest IH]; [by eexists|].
  destruct IH as (evs & Hrun & Htext & Hall & Hlen).
  destruct rest as [|elem' rest].
  - eexists. split; [done|]. simpl. rewrite decide_True by done.
    rewrite string_app_nil_r. split; [done|]. split; [|done].
    constructor; [by eexists|constructor].
  - exists (FileWrite file elem :: FileWrite file " " :: evs).
    split; [|split; [|split]].
    + change (human_write_elems file (elem :: elem' :: rest))
        with (emit (FileWrite file elem) ;; emit (FileWrite file " ") ;;
              human_write_elems file (elem' :: rest)).
      by rewrite Hrun.
    + cbn [written]. rewrite !decide_True by done. rewrite Htext. done.
    + constructor; [by eexists|]. constructor; [by eexists|done].
    + simpl in *. lia.
Qed.

Lemma human_write_sequence_returns (file : string) (sequence : list string) :
  (human_write_sequence file sequence).2 = inr tt.
Proof.
  unfold human_write_sequence.
  destruct (human_write_elems_written file sequence) as (evs & -> & _).
  done.
Qed.


(** A registered writer other than the bare [SeqWriter] takes a message
    without raising. *)
Lemma message_events_run (sequence : list string) (f : output_format) :
  f ≠ SeqWriter →
  (if is_SeqWriter f then write_sequence f sequence else ret tt)
  = (message_events sequence f, inr tt).
Proof.
  destruct f as [| |file own_file max_length|writer|]; try done.
  intros _. cbn [is_SeqWriter write_sequence message_events].
  pose proof (human_write_sequence_returns file sequence) as Hret.
  destruct (human_write_sequence file sequence) as [evs r].
  simpl in *. by subst.
Qed.

Lemma do_log_returns `{PyFloatText} (lg : Logger) (args : list value) :
  SeqWriter ∉ output_formats lg →
  _do_log lg args
  = (concat (message_events (str <$> args) <$> output_formats lg), inr tt).
Proof.
  intros Hseq. unfold _do_log. apply for_each_returns, Forall_forall.
  intros f Hf. apply message_events_run. by intros ->.
Qed.



(** X11.  The four leveled wrappers on a fresh logger and on a disabled
    one.  A fresh logger has level [INFO]: it drops [debug] messages and
    passes [info], [warn] and [error] on to the writers.  A logger whose
    level is [DISABLED] drops the messages of all four wrappers, but
    [log] with [level=DISABLED] still writes, the test being [<=]. *)
Theorem leveled_wrappers `{PyFloatText} (folder : option string)
    (fmts : list output_format) (lg : Logger) (args : list value) :
  let fresh := Logger_init folder fmts in
  let off := set_level lg DISABLED in
  debug fresh args = (fresh, ret tt) ∧
  info fresh args = (fresh, _do_log fresh args) ∧
  warn fresh args = (fresh, _do_log fresh args) ∧
  error fresh args = (fresh, _do_log fresh args) ∧
  debug off args = (off, ret tt) ∧
  info off args = (off, ret tt) ∧
  warn off args = (off, ret tt) ∧
  error off args = (off, ret tt) ∧
  log off args DISABLED = (off, _do_log lg args).
Proof. by repeat split. Qed.

(** ** The TensorBoard writer *)

(** On a closed writer an iteration either skips its item or raises. *)
Lemma tensorboard_row_closed (step : Z) (it : item) :
  tensorboard_row None step it = ret tt ∨
  tensorboard_row None step it = raise AttributeError.
Proof.
  destruct it as [[key value] [k ex]]. unfold tensorboard_row.
  destruct (tensorboard_excluded ex); [by left|].
  destruct value; simpl; auto.
Qed.

Lemma tensorboard_write_closed (key_values : gmap string value)
    (key_excluded : gmap string excluded) (step : Z) :
  tensorboard_write None key_values key_excluded step
  = raise AttributeError.
Proof.
  unfold tensorboard_write.
  induction (paired_items key_values key_excluded) as [|it items IH];
    [done|].
  cbn [for_each].
  destruct (tensorboard_row_closed step it) as [-> | ->]; [|done].
  simpl in *. destruct (for_each items _) as [evs [e|[]]]; done.
Qed.

(** On an open writer an iteration returns, after at most one call. *)
Lemma tensorboard_row_open (log_dir : string) (step : Z) (it : item) :
  ∃ evs,
    tensorboard_row (Some log_dir) step it = (evs, inr tt) ∧
    summary_keys evs = (if tensorboard_logged it then [it.1.1] else []) ∧
    Forall (λ ev, ∃ c, ev = SummaryWriterCall log_dir c) evs.
Proof.
  destruct it as [[key value] [k ex]].
  unfold tensorboard_row, tensorboard_logged. simpl.
  destruct (tensorboard_excluded ex); simpl; [by eexists|].
  destruct value; simpl; eexists; (split; [done|]); (split; [done|]);
    repeat constructor; by eexists.
Qed.

Lemma tensorboard_rows_open (log_dir : string) (step : Z)
    (items : list item) :
  ∃ evs,
    for_each items (tensorboard_row (Some log_dir) step) = (evs, inr tt) ∧
    summary_keys evs
    = (λ it : item, it.1.1) <$> filter (λ it, tensorboard_logged it) items ∧
    Forall (λ ev, ∃ c, ev = SummaryWriterCall log_dir c) evs.
Proof.
  induction items as [|it items (evs & Hrun & Hkeys & Hall)];
    [by eexists|].
  destruct (tensorboard_row_open log_dir step it)
    as (evs1 & Hrow & Hkeys1 & Hall1).
  exists (evs1 ++ evs). cbn [for_each]. rewrite Hrow, Hrun.
  split; [done|]. split; [|by apply Forall_app].
  unfold summary_keys in *. rewrite omap_app, Hkeys1, Hkeys, filter_cons.
  by destruct (tensorboard_logged it).
Qed.

(** X12.  The life cycle of a TensorBoard writer.  While it is open,
    [write] always returns, only talks to its own [SummaryWriter] and
    ends with a flush.  [close] closes the [SummaryWriter] and drops it;
    a second [close] does nothing; a [write] after [close] raises
    [AttributeError] before any effect, even for empty maps. *)
Theorem tensorboard_life_cycle `{PyFloatText} (log_dir : string)
    (key_values : gmap string value) (key_excluded : gmap string excluded)
    (step : Z) :
  let tb := TensorBoardOutputFormat (Some log_dir) in
  let closed := (close_format tb).1 in
  (∃ evs,
     tensorboard_write (Some log_dir) key_values key_excluded step
     = (evs ++ [SummaryWriterCall log_dir writer_flush], inr tt) ∧
     Forall (λ ev, ∃ c, ev = SummaryWriterCall log_dir c) evs) ∧
  (close_format tb).2
  = ([SummaryWriterCall log_dir writer_close], inr tt) ∧
  close_format closed = (closed, ret tt) ∧
  write closed key_values key_excluded step = raise AttributeError.
Proof.
  intros tb closed. split; [|split; [done|split; [done|]]].
  - unfold tensorboard_write.
    destruct (tensorboard_rows_open log_dir step
                (paired_items key_values key_excluded))
      as (evs & -> & _ & Hall).
    by exists evs.
  - apply tensorboard_write_closed.
Qed.

Lemma zip_keys_sublist {A B} (l1 : list (string * A)) :
  ∀ l2 : list (string * B),
    ((λ it : (string * A) * (string * B), it.1.1) <$> zip l1 l2)
    `sublist_of` l1.*1.
Proof.
  induction l1 as [|p l1 IH]; intros [|q l2]; simpl;
    [done|done|apply sublist_nil_l|].
  apply sublist_skip, IH.
Qed.

Lemma StronglySorted_sublist {A} (R : relation A) (l1 l2 : list A) :
  l1 `sublist_of` l2 → StronglySorted R l2 → StronglySorted R l1.
Proof.
  induction 1 as [|x l1 l2 Hsub IH|x l1 l2 Hsub IH]; intros Hsorted;
    [done| |].
  - apply StronglySorted_inv in Hsorted as [Hsorted Hx].
    constructor; [by apply IH|].
    apply Forall_forall. intros y Hy.
    eapply (proj1 (Forall_forall _ _) Hx), elem_of_sublist; done.
  - apply StronglySorted_inv in Hsorted as [Hsorted _]. by apply IH.
Qed.


(** ** The WandB writer *)

Lemma wandb_row_entry (wandb_dict : list (string * wandb_value)) (it : item) :
  wandb_row wandb_dict it = wandb_dict ++ option_list (wandb_entry it).
Proof.
  destruct it as [[key value] [k ex]]. unfold wandb_row, wandb_entry. simpl.
  destruct (wandb_excluded ex); simpl; [by rewrite app_nil_r|].
  destruct value; simpl; by rewrite ?app_nil_r.
Qed.

Lemma wandb_rows_entries (items : list item) :
  ∀ wandb_dict,
    foldl wandb_row wandb_dict items = wandb_dict ++ omap wandb_entry items.
Proof.
  induction items as [|it items IH]; intros wandb_dict; simpl.
  - by rewrite app_nil_r.
  - rewrite IH, wandb_row_entry, <- (assoc_L (++)). f_equal.
    by destruct (wandb_entry it).
Qed.

Lemma wandb_entries_keys_sublist (items : list item) :
  (omap wandb_entry items).*1 `sublist_of` ((λ it : item, it.1.1) <$> items).
Proof.
  induction items as [|it items IH]; simpl; [done|].
  destruct (wandb_entry it) as [[key w]|] eqn:Hit; simpl.
  - unfold wandb_entry in Hit. destruct (wandb_excluded it.2.2); [done|].
    destruct (wandb_payload it.1.2); [|done]. injection Hit as <- _.
    by apply sublist_skip.
  - by apply sublist_cons.
Qed.


(** ** Construction *)


(** A writer that [make_output_format] returned. *)
Lemma make_output_format_built (ps : process)
    (_format log_dir log_suffix : string) (f : output_format) :
  (make_output_format ps _format log_dir log_suffix).2 = inr f →
  _format ∈ backend_names f ∧ f ≠ SeqWriter ∧
  (close_format f).2.2 = inr tt.
Proof.
  unfold make_output_format.
  destruct (decide (_format = "stdout")) as [->|_].
  { intros [= <-]. split; [apply list_elem_of_here|done]. }
  destruct (decide (_format = "log")) as [->|_].
  { intros [= <-].
    split; [apply list_elem_of_further, list_elem_of_here|done]. }
  destruct (decide (_format = "tensorboard")) as [->|_].
  { unfold TensorBoardOutputFormat_init.
    destruct (SummaryWriter_imported ps); [|done].
    intros [= <-]. split; [apply list_elem_of_here|done]. }
  destruct (decide (_format = "wandb")) as [->|_]; [|done].
  unfold WANDBOutputFormat_init. destruct (wandb_run ps); [|done].
  intros [= <-]. split; [apply list_elem_of_here|done].
Qed.

(** The list comprehension: all writers are built, in order, or the first
    constructor that raises ends it. *)
Lemma make_output_formats_outcome (ps : process)
    (format_strings : list string) (log_dir log_suffix : string) :
  match (make_output_formats ps format_strings log_dir log_suffix).2 with
  | inr output_formats =>
      Forall2 (λ t f, (make_output_format ps t log_dir log_suffix).2 = inr f)
              format_strings output_formats
  | inl e =>
      ∃ before t after,
        format_strings = before ++ t :: after ∧
        (make_output_format ps t log_dir log_suffix).2 = inl e ∧
        Forall (λ t', ∃ f, (make_output_format ps t' log_dir log_suffix).2
                           = inr f) before
  end.
Proof.
  induction format_strings as [|t rest IH]; cbn [make_output_formats];
    [constructor|].
  destruct (make_output_format ps t log_dir log_suffix) as [evs [e|w]]
    eqn:Hmake.
  - exists [], t, rest. rewrite Hmake. by repeat split.
  - destruct (make_output_formats ps rest log_dir log_suffix)
      as [evs' [e|ws]]; simpl in *.
    + destruct IH as (before & t' & after & -> & Hfail & Hbefore).
      exists (t :: before), t', after. split; [done|]. split; [done|].
      constructor; [|done]. exists w. by rewrite Hmake.
    + constructor; [by rewrite Hmake|done].
Qed.


(** ** Loggers made of built writers *)

Lemma built_cases (f : output_format) :
  built f →
  (∃ file own_file, f = HumanOutputFormat file own_file 36) ∨
  (∃ log_dir, f = TensorBoardOutputFormat (Some log_dir)) ∨
  f = WANDBOutputFormat.
Proof.
  intros (ps & _format & log_dir & log_suffix & Hf).
  unfold make_output_format in Hf.
  destruct (decide (_format = "stdout")) as [->|_].
  { injection Hf as <-. left. by eexists _, _. }
  destruct (decide (_format = "log")) as [->|_].
  { injection Hf as <-. left. by eexists _, _. }
  destruct (decide (_format = "tensorboard")) as [->|_].
  { unfold TensorBoardOutputFormat_init in Hf.
    destruct (SummaryWriter_imported ps); [|done].
    injection Hf as <-. right. left. by eexists. }
  destruct (decide (_format = "wandb")) as [->|_]; [|done].
  unfold WANDBOutputFormat_init in Hf. destruct (wandb_run ps); [|done].
  injection Hf as <-. by right; right.
Qed.

Lemma close_formats_returns (fmts : list output_format) :
  Forall (λ f, (close_format f).2.2 = inr tt) fmts →
  (close_formats fmts).2.2 = inr tt.
Proof.
  induction 1 as [|f fmts Hf _ IH]; [done|]. cbn [close_formats].
  destruct (close_format f) as [f' [evs r]]. simpl in Hf. subst r. simpl.
  destruct (close_formats fmts) as [fmts' [evs' r']]. simpl in *. done.
Qed.

Lemma write_built_raises `{PyFloatText} (f : output_format)
    (key_values : gmap string value) (key_excluded : gmap string excluded)
    (step : Z) (e : exn) :
  built f →
  (write f key_values key_excluded step).2 = inl e →
  ∃ d, e = FormatUnsupportedError ["stdout"; "log"] d.
Proof.
  intros Hf.
  destruct (built_cases f Hf) as [(file & own_file & ->)|[[log_dir ->]| ->]];
    cbn [write].
  - unfold human_write, human_rows.
    pose proof (human_fold_outcome 36
                  (paired_items key_values key_excluded)
                  {| key2str := []; tag := None; tags := ∅ |}) as Hout.
    destruct (fold_result _ _ _) as [e'|st]; simpl.
    + intros [= <-]. destruct Hout as (it & _ & _ & Hit).
      destruct (human_value_str_raises _ _ Hit) as (d & _ & ->).
      by eexists.
    + by destruct (decide _).
  - unfold tensorboard_write.
    destruct (tensorboard_rows_open log_dir step
                (paired_items key_values key_excluded)) as (evs & -> & _).
    done.
  - done.
Qed.



(** ** Clients that only record numbers *)

Lemma perform_all_numbers `{PyFloatText} (lg : Logger) (c : call) :
  all_numbers lg → numbers_only c → all_numbers (perform lg c).
Proof.
  intros Hall Hc. pose proof (perform_keeps_maps lg c) as Hm.
  destruct c as [key v ex|key v ex| | | |].
  - intros k w. simpl. rewrite lookup_insert_Some.
    intros [[_ <-]|[_ Hk]]; [done|by eapply Hall].
  - destruct Hc as [q Hq]. cbn [perform].
    destruct (record_mean_number lg key v ex q Hq) as (q' & -> & _).
    { unfold number_or_absent.
      destruct (name_to_value lg !! key) eqn:Hk; [by eapply Hall|done]. }
    intros k w. simpl. rewrite lookup_insert_Some.
    intros [[_ <-]|[_ Hk]]; [by eexists|by eapply Hall].
  - destruct Hm as [->| ->]; [done|].
    intros k w. simpl. by rewrite lookup_empty.
  - destruct Hm as (Hv & _). intros k w. rewrite Hv. apply Hall.
  - destruct Hm as (Hv & _). intros k w. rewrite Hv. apply Hall.
  - destruct Hm as (Hv & _). intros k w. rewrite Hv. apply Hall.
Qed.





(** ** Further properties of [_truncate] and [record] *)

(** X20.  For a maximum length of at least 3, [_truncate] is idempotent:
    its result never exceeds the maximum, so truncating it again changes
    nothing. *)
Theorem truncate_idempotent (max_length : Z) (s : string) :
  (3 ≤ max_length)%Z →
  (Z.of_nat (String.length (_truncate max_length s)) ≤ max_length)%Z ∧
  _truncate max_length (_truncate max_length s) = _truncate max_length s.
Proof.
  intros H3. pose proof (truncate_length_le max_length s H3) as Hle.
  split; [done|]. by apply truncate_short.
Qed.

Lemma truncate_idempotent_witness :
  (Z.of_nat (String.length (_truncate 5 "abcdefgh")) ≤ 5)%Z ∧
  _truncate 5 (_truncate 5 "abcdefgh") = _truncate 5 "abcdefgh".
Proof. apply (truncate_idempotent 5 "abcdefgh"). lia. Defined.

(** X21.  [record] is last-write-wins: of two calls on the same key only
    the second one's value and exclusion remain, as the docstring says,
    and the logger is the one the second call alone would have
    produced. *)
Theorem record_last_wins (lg : Logger) (key : string) (v1 v2 : value)
    (exclude1 exclude2 : excluded) :
  record (record lg key v1 exclude1) key v2 exclude2
  = record lg key v2 exclude2 ∧
  name_to_value (record (record lg key v1 exclude1) key v2 exclude2) !! key
  = Some v2 ∧
  name_to_excluded (record (record lg key v1 exclude1) key v2 exclude2) !! key
  = Some exclude2.
Proof.
  unfold record, set_maps. simpl. rewrite !insert_insert_eq.
  by rewrite !lookup_insert_eq.
Qed.

(** X22.  Calls of [record] on different keys commute: the order in
    which distinct diagnostics are recorded has no influence on the
    logger, hence none on what [dump] writes. *)
Theorem record_commutes `{PyFloatText} (lg : Logger) (key1 key2 : string)
    (v1 v2 : value) (exclude1 exclude2 : excluded) (step : Z) :
  key1 ≠ key2 →
  record (record lg key1 v1 exclude1) key2 v2 exclude2
  = record (record lg key2 v2 exclude2) key1 v1 exclude1 ∧
  dump (record (record lg key1 v1 exclude1) key2 v2 exclude2) step
  = dump (record (record lg key2 v2 exclude2) key1 v1 exclude1) step.
Proof.
  intros Hne.
  assert (record (record lg key1 v1 exclude1) key2 v2 exclude2
          = record (record lg key2 v2 exclude2) key1 v1 exclude1) as ->.
  { unfold record, set_maps. simpl.
    rewrite (insert_insert_ne (name_to_value lg) key2 key1) by done.
    by rewrite (insert_insert_ne (name_to_excluded lg) key2 key1) by done. }
  done.
Qed.

Lemma record_commutes_witness :
  let lg := Logger_init None [HumanOutputFormat "<stdout>" false 36] in
  record (record lg "b" (VInt 1) None) "a" (VStr "x") (Some (ExStr "wandb"))
  = record (record lg "a" (VStr "x") (Some (ExStr "wandb"))) "b" (VInt 1) None ∧
  dump (H := float_text_stub)
       (record (record lg "b" (VInt 1) None) "a" (VStr "x")
               (Some (ExStr "wandb"))) 3
  = dump (H := float_text_stub)
         (record (record lg "a" (VStr "x") (Some (ExStr "wandb")))
                 "b" (VInt 1) None) 3.
Proof.
  intros lg.
  apply (record_commutes (H := float_text_stub) lg "b" "a" (VInt 1) (VStr "x")
           None (Some (ExStr "wandb")) 3).
  done.
Defined.

(** ** The abstract writers *)

Lemma for_each_raises {A} (before after : list A) (x : A)
    (body : A → io unit) (evs : A → list event) (evs_x : list event)
    (e : exn) :
  Forall (λ y, body y = (evs y, inr tt)) before →
  body x = (evs_x, inl e) →
  for_each (before ++ x :: after) body
  = (concat (evs <$> before) ++ evs_x, inl e).
Proof.
  intros Hbefore Hx. induction Hbefore as [|y before Hy _ IH]; simpl.
  - by rewrite Hx.
  - rewrite Hy, IH. simpl. by rewrite (assoc_L (++)).
Qed.



(** X24.  A bare [KVWriter] among the writers makes every [dump] of an
    enabled logger raise, its own [NotImplementedError] or the error of a
    writer before it, so the logger is never cleared: the recorded
    values, counts and exclusions stay as they are. *)
Theorem dump_never_clears_with_abstract_KVWriter `{PyFloatText}
    (lg : Logger) (step : Z) :
  KVWriter ∈ output_formats lg →
  level lg ≠ DISABLED →
  (dump lg step).1 = lg ∧ ∃ e, (dump lg step).2.2 = inl e.
Proof.
  intros Hin Hlevel. unfold dump.
  destruct (decide (level lg = DISABLED)) as [|_]; [done|].
  pose proof (for_each_outcome (output_formats lg) (λ _format,
    if is_KVWriter _format
    then write _format (name_to_value lg) (name_to_excluded lg) step
    else ret tt)) as Hout.
  destruct (for_each _ _).2 as [e|[]] eqn:Hrun; simpl; rewrite ?Hrun.
  - split; [done|]. by exists e.
  - destruct Hout as [Hall _].
    apply (proj1 (Forall_forall _ _) Hall) in Hin. done.
Qed.

Lemma dump_never_clears_with_abstract_KVWriter_witness :
  let lg := record (Logger_init None [WANDBOutputFormat; KVWriter])
                   "loss" (VInt 1) None in
  (dump (H := float_text_stub) lg 0).1 = lg ∧
  ∃ e, (dump (H := float_text_stub) lg 0).2.2 = inl e.
Proof.
  intros lg.
  apply (dump_never_clears_with_abstract_KVWriter (H := float_text_stub) lg 0).
  - apply list_elem_of_further, list_elem_of_here.
  - done.
Defined.

(** ** Opening and closing *)

Lemma make_output_format_balance (ps : process)
    (_format log_dir log_suffix : string) (evs : list setup_event)
    (f : output_format) :
  make_output_format ps _format log_dir log_suffix = (evs, inr f) →
  (close_format f).2.2 = inr tt ∧
  closed_files (close_format f).2.1 = opened evs ∧
  closed_writers (close_format f).2.1 = created evs.
Proof.
  unfold make_output_format.
  destruct (decide (_format = "stdout")) as [->|_].
  { by intros [= <- <-]. }
  destruct (decide (_format = "log")) as [->|_].
  { by intros [= <- <-]. }
  destruct (decide (_format = "tensorboard")) as [->|_].
  { unfold TensorBoardOutputFormat_init.
    destruct (SummaryWriter_imported ps); [|done]. by intros [= <- <-]. }
  destruct (decide (_format = "wandb")) as [->|_]; [|done].
  unfold WANDBOutputFormat_init. destruct (wandb_run ps); [|done].
  by intros [= <- <-].
Qed.

Lemma close_formats_events (fmts : list output_format) :
  Forall (λ f, (close_format f).2.2 = inr tt) fmts →
  (close_formats fmts).2
  = (concat ((λ f, (close_format f).2.1) <$> fmts), inr tt).
Proof.
  induction 1 as [|f fmts Hf _ IH]; [done|]. simpl.
  destruct (close_format f) as [f' [evs r]]. simpl in Hf. subst r. simpl.
  destruct (close_formats fmts) as [fmts' [evs' r']]. simpl in *.
  by injection IH as -> ->.
Qed.

Lemma make_output_formats_balance (ps : process) (log_dir log_suffix : string)
    (format_strings : list string) :
  ∀ evs ws,
    make_output_formats ps format_strings log_dir log_suffix = (evs, inr ws) →
    Forall (λ f, (close_format f).2.2 = inr tt) ws ∧
    closed_files (concat ((λ f, (close_format f).2.1) <$> ws)) = opened evs ∧
    closed_writers (concat ((λ f, (close_format f).2.1) <$> ws))
    = created evs.
Proof.
  induction format_strings as [|t rest IH]; intros evs ws;
    cbn [make_output_formats].
  - by intros [= <- <-].
  - destruct (make_output_format ps t log_dir log_suffix) as [evs1 [e|w]]
      eqn:Hmake; [done|].
    destruct (make_output_formats ps rest log_dir log_suffix)
      as [evs2 [e|ws2]]; [done|].
    intros [= <- <-].
    destruct (make_output_format_balance _ _ _ _ _ _ Hmake)
      as (Hret & Hfiles & Hwriters).
    destruct (IH evs2 ws2 eq_refl) as (Hall & Hfiles2 & Hwriters2).
    split; [by constructor|]. simpl.
    unfold closed_files, closed_writers, opened, created in *.
    rewrite !omap_app.
    split; [exact (f_equal2 app Hfiles Hfiles2)
           |exact (f_equal2 app Hwriters Hwriters2)].
Qed.

(** X25.  What [configure_logger] opens, [Logger.close] closes: on the
    logger it returns, [close] returns and closes exactly the files that
    the construction opened and exactly the [SummaryWriter]s that it
    created, each once and in the same order; the console stream, which
    was not opened, is not closed. *)
Theorem configured_logger_closes_what_it_opened `{PyFloatText}
    (ps : process) (folder : string) (format_strings : list string)
    (evs : list setup_event) (lg : Logger) (out : list event) :
  configure_logger ps folder (Some format_strings) = (evs, inr (lg, out)) →
  (close lg).2.2 = inr tt ∧
  closed_files (close lg).2.1 = opened evs ∧
  closed_writers (close lg).2.1 = created evs.
Proof.
  unfold configure_logger.
  destruct (make_output_formats ps (filter_None format_strings) folder "")
    as [evs' [e|ws]] eqn:Hmake; [done|].
  destruct (make_output_formats_balance _ _ _ _ _ _ Hmake)
    as (Hall & Hfiles & Hwriters).
  assert (∀ lg', output_formats lg' = ws →
            (close lg').2.2 = inr tt ∧
            closed_files (close lg').2.1 = opened (makedirs folder :: evs') ∧
            closed_writers (close lg').2.1
            = created (makedirs folder :: evs')) as Hclose.
  { intros lg' Hlg'. unfold close. rewrite Hlg'.
    pose proof (close_formats_events ws Hall) as Hevents.
    destruct (close_formats ws) as [fmts m]. simpl in *. by subst m. }
  destruct (decide _) as [_|_].
  - unfold log.
    destruct (decide _) as [_|_].
    + destruct (_do_log _ _) as [out' [e|[]]]; [done|].
      intros [= <- <- <-]. by apply Hclose.
    + intros [= <- <- <-]. by apply Hclose.
  - intros [= <- <- <-]. by apply Hclose.
Qed.

Lemma configured_logger_closes_what_it_opened_witness :
  let lg := Logger_init (Some "runs")
              [HumanOutputFormat sys_stdout false 36;
               HumanOutputFormat "runs/log.txt" true 36;
               TensorBoardOutputFormat (Some "runs")] in
  let evs := [makedirs "runs"; makedirs "runs"; makedirs "runs";
              open_wt "runs/log.txt"; makedirs "runs";
              new_SummaryWriter "runs"] in
  (close lg).2.2 = inr tt ∧
  closed_files (close lg).2.1 = opened evs ∧
  closed_writers (close lg).2.1 = created evs.
Proof.
  intros lg evs.
  apply (configured_logger_closes_what_it_opened (H := float_text_stub)
           {| SummaryWriter_imported := true; wandb_run := false |}
           "runs" ["stdout"; ""; "log"; "tensorboard"] evs lg
           ((human_write_sequence sys_stdout ["Logging to runs"]).1 ++
            (human_write_sequence "runs/log.txt" ["Logging to runs"]).1)).
  reflexivity.
Defined.
